(** * Depths of Ascension: tick resolution core

    A shallow embedding of the combat rules (combat-system.js), of the
    client-side game engine (game-engine.js) and of the serverless tick
    function (api/game-tick.js), with the properties their specification
    states about them.

    Conventions of the embedding.
    - JavaScript numbers that the code only ever adds, compares, floors
      or clamps are integers ([Z]); the two places where the code divides
      without flooring (the random draw and the progression chance) are
      exact rationals ([Q]).
    - Object literals used as dictionaries are finite maps ([gmap]); a
      field that may be absent from an object is an [option].  Members
      inherited from Object.prototype are outside the model.
    - [Math.random], the wall clock and the record store are threaded
      through a state monad with exceptions: a [throw] keeps the state
      reached so far, as in JavaScript.
    - Objects are passed by reference in the source.  A method that
      receives a character, an enemy or a target returns, next to its
      result, the state of that object after the call. *)

From Stdlib Require Import ZArith QArith Qround Lia Ascii String.
From stdpp Require Import base option list gmap strings pretty.

Open Scope Z_scope.

(** ** Data model *)

Inductive Status := active | knocked_out | dead.

Inductive GameState := game_active | game_completed | game_failed.

#[global] Instance Status_eq_dec : EqDecision Status.
Proof. solve_decision. Defined.

#[global] Instance GameState_eq_dec : EqDecision GameState.
Proof. solve_decision. Defined.

(** [equipment] objects: only the [main_hand] slot is read by the code. *)
Record Equipment := mkEquipment {
  main_hand : option string;
  chest : option string
}.

(** The fields of a character or of an enemy that the combat rules read
    or write.  [status], [skills] and [equipment] may be missing from the
    object (an enemy literal carries no [status] and no [equipment]). *)
Record Combatant := mkCombatant {
  current_hp : Z;
  status : option Status;
  skills : option (gmap string Z);
  equipment : option Equipment
}.

Definition set_current_hp (v : Z) (t : Combatant) : Combatant :=
  mkCombatant v (status t) (skills t) (equipment t).

Definition set_status (v : Status) (t : Combatant) : Combatant :=
  mkCombatant (current_hp t) (Some v) (skills t) (equipment t).

Definition set_skills (v : gmap string Z) (t : Combatant) : Combatant :=
  mkCombatant (current_hp t) (status t) (Some v) (equipment t).

(** A character as [getCharacter] hands it out. *)
Record Character := mkCharacter {
  character_id : Z;
  character_name : string;
  max_hp : Z;
  inventory : list string;
  x_position : Z;
  y_position : Z;
  stats :> Combatant
}.

Definition set_stats (c : Combatant) (ch : Character) : Character :=
  mkCharacter (character_id ch) (character_name ch) (max_hp ch)
    (inventory ch) (x_position ch) (y_position ch) c.

Definition set_inventory (inv : list string) (ch : Character) : Character :=
  mkCharacter (character_id ch) (character_name ch) (max_hp ch)
    inv (x_position ch) (y_position ch) (stats ch).

Definition set_position (x y : Z) (ch : Character) : Character :=
  mkCharacter (character_id ch) (character_name ch) (max_hp ch)
    (inventory ch) x y (stats ch).

(** An enemy: the combat fields plus its identity. *)
Record Enemy := mkEnemy {
  enemy_id : string;
  enemy_name : string;
  enemy_max_hp : Z;
  enemy_stats :> Combatant
}.

Record GameInstance := mkGameInstance {
  instance_id : Z;
  dungeon_id : string;
  characters : list Z;
  current_room_index : Z;
  game_state : GameState;
  current_tick : Z;
  last_activity : Z
}.

Record Dungeon := mkDungeon {
  room_sequence : list string
}.

(** ** Outcomes, exceptions and the state monad *)

Inductive Outcome (A : Type) :=
| Return (a : A)
| Throw (message : string).
Arguments Return {A} a.
Arguments Throw {A} message.

Section StateExn.
Context {St : Type}.

Definition StateExn (A : Type) : Type := St -> Outcome A * St.

Definition ret {A} (a : A) : StateExn A := fun s => (Return a, s).

Definition throw {A} (message : string) : StateExn A :=
  fun s => (Throw message, s).

Definition bind {A B} (m : StateExn A) (k : A -> StateExn B) : StateExn B :=
  fun s =>
    match m s with
    | (Return a, s') => k a s'
    | (Throw e, s') => (Throw e, s')
    end.

(** [try { m } catch (error) { h error.message }] *)
Definition try_catch {A} (m : StateExn A) (h : string -> StateExn A)
  : StateExn A :=
  fun s =>
    match m s with
    | (Return a, s') => (Return a, s')
    | (Throw e, s') => h e s'
    end.

Definition get : StateExn St := fun s => (Return s, s).
Definition modify (f : St -> St) : StateExn unit := fun s => (Return tt, f s).
End StateExn.
Arguments StateExn : clear implicits.

#[global] Instance StateExn_ret {St} : MRet (StateExn St) := @ret St.
#[global] Instance StateExn_bind {St} : MBind (StateExn St) :=
  fun A B k m => bind m k.

(** ** The random source

    [Math.random()] yields a double in [0,1) that is a multiple of
    2^-53.  The source of randomness is a stream of raw 53-bit words and
    a cursor into it. *)

Record RandomSource := mkRandomSource {
  raw_words : nat -> N;
  cursor : nat
}.

Definition random_unit (raw : N) : Q :=
  Qmake (Z.of_N (raw mod 2 ^ 53)) (2 ^ 53)%positive.

Definition next_random (r : RandomSource) : Q * RandomSource :=
  (random_unit (raw_words r (cursor r)),
   mkRandomSource (raw_words r) (S (cursor r))).

(** ** Results of the tick function (api/game-tick.js) *)

Record SkillProgress := mkSkillProgress {
  leveledUp : bool;
  newLevel : option Z;
  oldLevel : Z
}.

(** The type-specific fields of an action result.  The record built in
    the catch block of [processGameTick] carries no [type] tag. *)
Inductive ActionDetail :=
| attack_detail (target skillUsed : string) (roll total defenseRoll damage : Z)
    (critical : bool) (skillProgress : SkillProgress)
| move_detail
| skill_check_detail (skillId : string) (roll total dc : Z)
    (skillProgress : SkillProgress)
| item_use_detail (item : option string) (healing : option Z)
| interact_detail
| unknown_detail (command : string) (message : string)
| failure_detail (error : string).

Record ActionResult := mkActionResult {
  success : bool;
  character : option string;
  result_character_id : option Z;
  narration : option string;
  detail : ActionDetail
}.


(** ** The record store

    Tables are lists of records, as the store returns them; a read takes
    the first record that matches the filter. *)

Record Command := mkCommand {
  command_id : Z;
  command_instance_id : Z;
  command_character_id : Z;
  tick_number : Z;
  raw_input : option string;
  command_result : option ActionResult
}.

Record Store := mkStore {
  game_instances : list GameInstance;
  character_table : list Character;
  command_table : list Command;
  dungeon_table : list (string * Dungeon)
}.

Record World := mkWorld {
  store : Store;
  random : RandomSource;
  clock : Z
}.

Abbreviation M := (StateExn World).

Definition set_store (s : Store) (w : World) : World :=
  mkWorld s (random w) (clock w).

(** [Math.random()] *)
Definition Math_random : M Q :=
  fun w => let '(u, r) := next_random (random w) in
           (Return u, mkWorld (store w) r (clock w)).


(** [x || 0] on a number that may be undefined. *)
Definition or_zero (x : option Z) : Z := default 0 x.

(** [obj[key] || 0] on a dictionary of numbers. *)
Definition level_of (m : gmap string Z) (key : string) : Z :=
  or_zero (m !! key).

(** Replaces the first element that satisfies [p]; the list is left as it
    is when there is none. *)
Fixpoint update_first {A} (p : A -> bool) (f : A -> A) (l : list A) : list A :=
  match l with
  | [] => []
  | x :: rest => if p x then f x :: rest else x :: update_first p f rest
  end.

(** ** combat-system.js *)

Module CombatSystem.

(** The [modifiers] objects; every field may be absent. *)
Record Modifiers := mkModifiers {
  item : option Z;
  buffs : option Z;
  debuffs : option Z;
  ability : option Z;
  critical_hit : option bool
}.

(** The default argument [{}]. *)
Definition no_modifiers : Modifiers := mkModifiers None None None None None.

Record Breakdown := mkBreakdown {
  breakdown_base : Z;
  breakdown_skill : Z;
  breakdown_item : Z;
  breakdown_buffs : Z;
  breakdown_debuffs : Z
}.

Record RollResult := mkRollResult {
  roll : Z;
  total : Z;
  critical : bool;
  fumble : bool;
  breakdown : Breakdown
}.

Record AttackResult := mkAttackResult {
  hit : bool;
  attackRoll : RollResult;
  defenseRoll : RollResult;
  damage : Z;
  actualDamage : Z;
  attack_critical : bool;
  attack_fumble : bool;
  skillUsed : string;
  skillLevel : Z
}.

Record DamageResult := mkDamageResult {
  damage_newHP : Z;
  wasKnockedOut : bool;
  died : bool
}.

Record HealingResult := mkHealingResult {
  healing_newHP : Z;
  actualHealing : Z
}.

Record ProgressResult := mkProgressResult {
  progress_leveledUp : bool;
  progress_newLevel : Z;
  progress_oldLevel : Z
}.

(** [Math.floor(Math.random() * 20) + 1] *)
Definition rollD20 : M Z :=
  u ← Math_random; mret (Qfloor (u * 20) + 1).

Definition calculateAttackRoll (skillLevel : Z) (modifiers : Modifiers)
  : M RollResult :=
  roll ← rollD20;
  let itemBonus := or_zero (item modifiers) in
  let buffs := or_zero (buffs modifiers) in
  let debuffs := or_zero (debuffs modifiers) in
  let skillPenalty := if decide (skillLevel = 0) then -5 else 0 in
  let total := roll + skillLevel + itemBonus + buffs - debuffs + skillPenalty in
  mret {| roll := roll;
          total := total;
          critical := bool_decide (roll = 20);
          fumble := bool_decide (roll = 1);
          breakdown := {| breakdown_base := roll;
                          breakdown_skill := skillLevel + skillPenalty;
                          breakdown_item := itemBonus;
                          breakdown_buffs := buffs;
                          breakdown_debuffs := - debuffs |} |}.

Definition calculateDefenseRoll (character : Combatant) (modifiers : Modifiers)
  : M (RollResult * Combatant) :=
  let skills := default ∅ (skills character) in
  let highestDefensiveSkill :=
    Z.max (level_of skills "dodge")
      (Z.max (level_of skills "shield_use") (level_of skills "parry")) in
  r ← calculateAttackRoll highestDefensiveSkill modifiers;
  mret (r, character).

Definition calculateDamage (skillLevel weaponDamage : Z) (modifiers : Modifiers)
  : Z :=
  let baseDamage := skillLevel / 5 + weaponDamage in
  let baseDamage :=
    match ability modifiers with
    | Some a => if decide (a = 0) then baseDamage else baseDamage + a
    | None => baseDamage
    end in
  let baseDamage :=
    if default false (critical_hit modifiers) then baseDamage * 2
    else baseDamage in
  Z.max 1 baseDamage.

Definition weaponStats : gmap string Z :=
  {[ "rusty_sword" := 1; "iron_sword" := 3; "steel_sword" := 5;
     "simple_bow" := 2; "flaming_sword" := 5 ]}.

Definition getWeaponDamage (weaponId : option string) : Z :=
  match weaponId with
  | Some w => level_of weaponStats w
  | None => 0
  end.

(** [attacker.skills[skillId]] is a TypeError when [attacker.skills] is
    undefined; [attacker.equipment?.main_hand] is guarded. *)
Definition resolveAttack (attacker defender : Combatant) (skillId : string)
    (attackModifiers defenseModifiers : Modifiers)
  : M (AttackResult * Combatant * Combatant) :=
  match skills attacker with
  | None => throw "Cannot read properties of undefined"
  | Some attackerSkills =>
    let attackerSkill := level_of attackerSkills skillId in
    let weaponDamage :=
      getWeaponDamage (equipment attacker ≫= main_hand) in
    attackRoll ← calculateAttackRoll attackerSkill attackModifiers;
    '(defenseRoll, defender) ← calculateDefenseRoll defender defenseModifiers;
    let hit := bool_decide (total attackRoll >= total defenseRoll) in
    let damage :=
      if hit then
        calculateDamage attackerSkill weaponDamage
          {| item := None; buffs := None; debuffs := None;
             critical_hit := Some (critical attackRoll);
             ability := Some (or_zero (ability attackModifiers)) |}
      else 0 in
    let actualDamage :=
      if hit then Z.min damage (current_hp defender) else 0 in
    mret ({| hit := hit;
             attackRoll := attackRoll;
             defenseRoll := defenseRoll;
             damage := damage;
             actualDamage := actualDamage;
             attack_critical := critical attackRoll;
             attack_fumble := fumble attackRoll;
             skillUsed := skillId;
             skillLevel := attackerSkill |}, attacker, defender)
  end.

(** [Object.values(skills || {}).reduce((sum, level) => sum + level, 0)] *)
Definition calculateTotalLevel (skills : option (gmap string Z)) : Z :=
  map_fold (fun _ level sum => sum + level) 0 (default ∅ skills).

Definition calculateMaxHP (totalLevel : Z) : Z := 20 + totalLevel / 10.

Definition calculateMaxEnergy (totalLevel : Z) : Z := 10 + totalLevel / 20.

Definition applyDamage (target : Combatant) (damage : Z)
  : DamageResult * Combatant :=
  let newHP := Z.max 0 (current_hp target - damage) in
  let wasKnockedOut :=
    bool_decide (current_hp target > 0) && bool_decide (newHP = 0) in
  let died := bool_decide (newHP = 0) in
  let target' := set_current_hp newHP target in
  let target' :=
    if died then
      set_status (if decide (status target' = Some active)
                  then knocked_out else dead) target'
    else target' in
  ({| damage_newHP := newHP; wasKnockedOut := wasKnockedOut; died := died |},
   target').

Definition applyHealing (target : Combatant) (healing : Z)
  : HealingResult * Combatant :=
  let maxHP := calculateMaxHP (calculateTotalLevel (skills target)) in
  let newHP := Z.min maxHP (current_hp target + healing) in
  let actualHealing := newHP - current_hp target in
  ({| healing_newHP := newHP; actualHealing := actualHealing |},
   set_current_hp newHP target).

(** [100 / (currentLevel + 10)], a percentage. *)
Definition progressChance (currentLevel : Z) : Q :=
  (100 / inject_Z (currentLevel + 10))%Q.

(** [roll < progressChance]; a division by zero is [Infinity] in
    JavaScript, above every roll. *)
Definition below_chance (roll : Q) (currentLevel : Z) : bool :=
  if decide (currentLevel + 10 = 0) then true
  else if Qlt_le_dec roll (progressChance currentLevel) then true else false.

(** [character.skills[skillId]] is a TypeError when [character.skills]
    is undefined. *)
Definition processSkillProgression (character : Combatant) (skillId : string)
  : M (ProgressResult * Combatant) :=
  match skills character with
  | None => throw "Cannot read properties of undefined"
  | Some skills =>
    let currentLevel := level_of skills skillId in
    u ← Math_random;
    let roll := (u * 100)%Q in
    if below_chance roll currentLevel then
      let newLevel := Z.min (currentLevel + 1) 100 in
      mret ({| progress_leveledUp := true;
               progress_newLevel := newLevel;
               progress_oldLevel := currentLevel |},
            set_skills (<[skillId := newLevel]> skills) character)
    else
      mret ({| progress_leveledUp := false;
               progress_newLevel := currentLevel;
               progress_oldLevel := currentLevel |}, character)
  end.

End CombatSystem.

(** ** airtable-client.js: the storage collaborator

    The client reaches the store through a proxy that is not part of the
    sources; a request that fails is caught by the client and answered
    with [null], [false] or [[]].  The tables are modelled by the lists
    of [Store]. *)

Module AirtableClient.

(** The defaults that [getCharacter] fills in:
    [status || 'active'], [skills || '{}'], [equipment || '{}']. *)
Definition read_character (record : Character) : Character :=
  set_stats
    {| current_hp := current_hp record;
       status := Some (default active (status record));
       skills := Some (default ∅ (skills record));
       equipment := Some (default (mkEquipment None None) (equipment record)) |}
    record.

Definition getCharacter (characterId : Z) : M (option Character) :=
  w ← get;
  mret (read_character <$>
          find (fun r => bool_decide (character_id r = characterId))
               (character_table (store w))).

(** The fields of an [updates] object. *)
Record CharacterUpdate := mkCharacterUpdate {
  update_skills : option (gmap string Z);
  update_current_hp : option Z;
  update_inventory : option (list string);
  update_x_position : option Z;
  update_y_position : option Z
}.

Definition no_update : CharacterUpdate :=
  mkCharacterUpdate None None None None None.

Definition apply_update (u : CharacterUpdate) (r : Character) : Character :=
  {| character_id := character_id r;
     character_name := character_name r;
     max_hp := max_hp r;
     inventory := default (inventory r) (update_inventory u);
     x_position := default (x_position r) (update_x_position u);
     y_position := default (y_position r) (update_y_position u);
     stats := {| current_hp := default (current_hp r) (update_current_hp u);
                 status := status r;
                 skills := match update_skills u with
                           | Some m => Some m
                           | None => skills r
                           end;
                 equipment := equipment r |} |}.

Definition has_character_id (characterId : Z) (r : Character) : bool :=
  bool_decide (character_id r = characterId).

Definition updateCharacter (characterId : Z) (updates : CharacterUpdate)
  : M bool :=
  w ← get;
  match find (has_character_id characterId) (character_table (store w)) with
  | None => mret false
  | Some _ =>
    modify (fun w =>
      set_store
        {| game_instances := game_instances (store w);
           character_table :=
             update_first (has_character_id characterId)
               (apply_update updates) (character_table (store w));
           command_table := command_table (store w);
           dungeon_table := dungeon_table (store w) |} w);;
    mret true
  end.

(** [characters || []], [current_room_index || 0], [current_tick || 1] *)
Definition read_instance (record : GameInstance) : GameInstance :=
  {| instance_id := instance_id record;
     dungeon_id := dungeon_id record;
     characters := characters record;
     current_room_index := current_room_index record;
     game_state := game_state record;
     current_tick :=
       if decide (current_tick record = 0) then 1 else current_tick record;
     last_activity := last_activity record |}.

Definition has_instance_id (instanceId : Z) (r : GameInstance) : bool :=
  bool_decide (instance_id r = instanceId).

Definition getGameInstance (instanceId : Z) : M (option GameInstance) :=
  w ← get;
  mret (read_instance <$>
          find (has_instance_id instanceId) (game_instances (store w))).

Definition getTickCommands (instanceId tickNumber : Z) : M (list Command) :=
  w ← get;
  mret (filter (fun c => command_instance_id c = instanceId
                         ∧ tick_number c = tickNumber)
               (command_table (store w))).


End AirtableClient.

(** ** String primitives used by the command parser

    Strings are ASCII; [\s] is the ASCII white space. *)

Module JSString.

Definition is_whitespace (c : ascii) : bool :=
  let n := nat_of_ascii c in
  ((9 <=? n)%nat && (n <=? 13)%nat) || (n =? 32)%nat.

Definition lower_char (c : ascii) : ascii :=
  let n := nat_of_ascii c in
  if ((65 <=? n)%nat && (n <=? 90)%nat) then ascii_of_nat (n + 32) else c.

Definition upper_char (c : ascii) : ascii :=
  let n := nat_of_ascii c in
  if ((97 <=? n)%nat && (n <=? 122)%nat) then ascii_of_nat (n - 32) else c.

Fixpoint toLowerCase (s : string) : string :=
  match s with
  | EmptyString => EmptyString
  | String c s' => String (lower_char c) (toLowerCase s')
  end.

Fixpoint trimStart (s : string) : string :=
  match s with
  | EmptyString => EmptyString
  | String c s' => if is_whitespace c then trimStart s' else s
  end.

Definition trim (s : string) : string :=
  String.rev (trimStart (String.rev (trimStart s))).

(** [s.split(/\s+/)]: [cur] is the current piece, reversed; [in_gap]
    tells that the previous character was white space. *)
Fixpoint split_whitespace_go (cur : string) (in_gap : bool) (s : string)
  : list string :=
  match s with
  | EmptyString => [String.rev cur]
  | String c s' =>
    if is_whitespace c then
      if in_gap then split_whitespace_go EmptyString true s'
      else String.rev cur :: split_whitespace_go EmptyString true s'
    else split_whitespace_go (String c cur) false s'
  end.

Definition split_whitespace (s : string) : list string :=
  split_whitespace_go EmptyString false s.

(** [s.split(sep)] for a one-character separator. *)
Fixpoint split_char_go (sep : ascii) (cur : string) (s : string) : list string :=
  match s with
  | EmptyString => [String.rev cur]
  | String c s' =>
    if decide (c = sep) then String.rev cur :: split_char_go sep EmptyString s'
    else split_char_go sep (String c cur) s'
  end.

Definition split_char (sep : ascii) (s : string) : list string :=
  split_char_go sep EmptyString s.

(** [word.charAt(0).toUpperCase() + word.slice(1)] *)
Definition capitalize (word : string) : string :=
  match word with
  | EmptyString => EmptyString
  | String c rest => String (upper_char c) rest
  end.

Fixpoint join (sep : string) (l : list string) : string :=
  match l with
  | [] => EmptyString
  | [x] => x
  | x :: rest => (x +:+ sep +:+ join sep rest)%string
  end.

(** [words.some(w => list.includes(w))] *)
Definition some_included (words : list string) (l : list string) : bool :=
  existsb (fun w => bool_decide (w ∈ l)) words.

End JSString.

(** A parsed intent, as the parser or the language model returns it. *)
Record ParsedIntent := mkParsedIntent {
  intent : string;
  intent_target : option string;
  skill_suggested : option string;
  confidence : Q
}.

(** [s || fallback] on a string that may be null: the empty string is
    falsy as well. *)
Definition or_string (s : option string) (fallback : string) : string :=
  match s with
  | Some EmptyString | None => fallback
  | Some x => x
  end.

(** The goblin literal of both attack handlers. *)
Definition goblinEnemy : Enemy :=
  {| enemy_id := "goblin_1";
     enemy_name := "Goblin";
     enemy_max_hp := 10;
     enemy_stats :=
       {| current_hp := 10;
          status := None;
          skills := Some {[ "swordsmanship" := 5; "dodge" := 3 ]};
          equipment := None |} |}.

(** ** game-engine.js: the handlers of the client-side engine *)

Module GameEngine.

Inductive EngineDetail :=
| engine_attack (attackResult : CombatSystem.AttackResult)
    (skillProgress : CombatSystem.ProgressResult) (target skillUsed : string)
| engine_item_used (item : string) (healingResult : CombatSystem.HealingResult)
| engine_item_failed (error : string).

Record EngineResult := mkEngineResult {
  engine_success : bool;
  engine_character : string;
  engine_detail : EngineDetail
}.

Definition processAttackCommand (character : Character)
    (parsedIntent : ParsedIntent) (gameInstance : GameInstance)
  : M (EngineResult * Character) :=
  let goblinEnemy := goblinEnemy in
  let skillId := or_string (skill_suggested parsedIntent) "swordsmanship" in
  '(attackResult, attacker, _) ←
    CombatSystem.resolveAttack character goblinEnemy skillId
      CombatSystem.no_modifiers CombatSystem.no_modifiers;
  let character := set_stats attacker character in
  '(skillProgress, progressed) ←
    CombatSystem.processSkillProgression character skillId;
  let character := set_stats progressed character in
  (if CombatSystem.progress_leveledUp skillProgress then
     AirtableClient.updateCharacter (character_id character)
       {| AirtableClient.update_skills := skills character;
          AirtableClient.update_current_hp := None;
          AirtableClient.update_inventory := None;
          AirtableClient.update_x_position := None;
          AirtableClient.update_y_position := None |};;
     mret tt
   else mret tt);;
  mret ({| engine_success := CombatSystem.hit attackResult;
           engine_character := character_name character;
           engine_detail :=
             engine_attack attackResult skillProgress
               (enemy_name goblinEnemy) skillId |}, character).

Definition processItemCommand (character : Character)
    (parsedIntent : ParsedIntent) (gameInstance : GameInstance)
  : M (EngineResult * Character) :=
  if bool_decide ("health_potion" ∈ inventory character) then
    let '(healingResult, healed) := CombatSystem.applyHealing character 15 in
    let character := set_stats healed character in
    let newInventory :=
      filter (fun item => item ≠ "health_potion") (inventory character) in
    AirtableClient.updateCharacter (character_id character)
      {| AirtableClient.update_skills := None;
         AirtableClient.update_current_hp := Some (current_hp character);
         AirtableClient.update_inventory := Some newInventory;
         AirtableClient.update_x_position := None;
         AirtableClient.update_y_position := None |};;
    mret ({| engine_success := true;
             engine_character := character_name character;
             engine_detail := engine_item_used "Health Potion" healingResult |},
          character)
  else
    mret ({| engine_success := false;
             engine_character := character_name character;
             engine_detail :=
               engine_item_failed "Item not found or cannot be used" |},
          character).



(** [roomState.enemies], when present, is the list of enemies. *)
Definition areAllEnemiesDefeated (enemies : option (list Enemy)) : bool :=
  match enemies with
  | None => true
  | Some enemies =>
    forallb (fun enemy : Enemy => bool_decide (current_hp enemy <= 0)) enemies
  end.

End GameEngine.

(** ** api/game-tick.js: the serverless tick function *)

Module GameTick.

(** *** Database helpers

    The bodies of these helpers in the source are placeholders that
    answer fixed data ("implementation would call airtable-proxy"); the
    proxy itself is not part of the sources.  Each helper is given the
    behaviour that the storage contract of the specification (section 6)
    prescribes for the call it stands for. *)

(** Modelled from the spec: the body of [getGameInstance], missing from
    the file.  It is read(game_instances, filter) of the storage
    collaborator: the first record with this instance id, or null. *)
Definition getGameInstance (instanceId : Z) : M (option GameInstance) :=
  w ← get;
  mret (find (AirtableClient.has_instance_id instanceId)
             (game_instances (store w))).

(** Modelled from the spec: the body of [getTickCommands], missing from
    the file.  It is read(commands, filter) of the storage collaborator:
    the commands submitted to the instance for the tick, in submission
    order. *)
Definition getTickCommands (instanceId tickNumber : Z) : M (list Command) :=
  AirtableClient.getTickCommands instanceId tickNumber.

(** Modelled from the spec: the body of [getCharacter], missing from
    the file.  It is read(characters, filter) of the storage
    collaborator; an empty or missing skill map, equipment or inventory
    is read as an empty one, never as null. *)
Definition getCharacter (characterId : Z) : M (option Character) :=
  AirtableClient.getCharacter characterId.

(** Modelled from the spec: the body of [updateCharacter], missing from
    the file.  It is update(characters, recordId, fields) of the storage
    collaborator, on the first record with this character id. *)
Definition updateCharacter (characterId : Z)
    (updates : AirtableClient.CharacterUpdate) : M bool :=
  AirtableClient.updateCharacter characterId updates;;
  mret true.

Definition set_command_result (result : ActionResult) (c : Command) : Command :=
  {| command_id := command_id c;
     command_instance_id := command_instance_id c;
     command_character_id := command_character_id c;
     tick_number := tick_number c;
     raw_input := raw_input c;
     command_result := Some result |}.

(** Modelled from the spec: the body of [updateCommand], missing from
    the file.  It is update(commands, recordId, fields) of the storage
    collaborator, which stores the produced result with the command. *)
Definition updateCommand (commandId : Z) (result : ActionResult) : M bool :=
  modify (fun w =>
    set_store
      {| game_instances := game_instances (store w);
         character_table := character_table (store w);
         command_table :=
           update_first (fun c => bool_decide (command_id c = commandId))
             (set_command_result result) (command_table (store w));
         dungeon_table := dungeon_table (store w) |} w);;
  mret true.

Definition set_tick (tick activity : Z) (g : GameInstance) : GameInstance :=
  {| instance_id := instance_id g;
     dungeon_id := dungeon_id g;
     characters := characters g;
     current_room_index := current_room_index g;
     game_state := game_state g;
     current_tick := tick;
     last_activity := activity |}.

(** Modelled from the spec: the body of [updateGameInstance], missing
    from the file.  It is update(game_instances, recordId, fields) of the
    storage collaborator for the two fields that the tick writes; the
    contract has no conditional update, and the caller passes no expected
    tick. *)
Definition updateGameInstance (instanceId : Z) (tick activity : Z) : M bool :=
  modify (fun w =>
    set_store
      {| game_instances :=
           update_first (AirtableClient.has_instance_id instanceId)
             (set_tick tick activity) (game_instances (store w));
         character_table := character_table (store w);
         command_table := command_table (store w);
         dungeon_table := dungeon_table (store w) |} w);;
  mret true.



(** *** Utility functions *)

Definition rollD20 : M Z :=
  u ← Math_random; mret (Qfloor (u * 20) + 1).

Definition formatSkillName (skillId : string) : string :=
  JSString.join " "
    (JSString.capitalize <$> JSString.split_char "_"%char skillId).

(** *** The fallback parser *)

Definition parseCommandFallback (input : string) : ParsedIntent :=
  let lowercaseInput := JSString.trim (JSString.toLowerCase input) in
  let words := JSString.split_whitespace lowercaseInput in
  if JSString.some_included words ["attack"; "hit"; "strike"; "fight"; "kill"]
  then {| intent := "attack"; intent_target := Some "goblin";
          skill_suggested := Some "swordsmanship"; confidence := 8 # 10 |}
  else if JSString.some_included words ["move"; "go"; "walk"; "run"; "step"]
  then {| intent := "move"; intent_target := None;
          skill_suggested := Some "navigation"; confidence := 7 # 10 |}
  else if JSString.some_included words
            ["defend"; "block"; "guard"; "shield"; "protect"]
  then {| intent := "use_skill"; intent_target := None;
          skill_suggested := Some "shield_use"; confidence := 8 # 10 |}
  else if JSString.some_included words ["use"; "drink"; "consume"; "apply"]
  then {| intent := "use_item"; intent_target := Some "health_potion";
          skill_suggested := None; confidence := 7 # 10 |}
  else {| intent := "unknown"; intent_target := None;
          skill_suggested := None; confidence := 1 # 10 |}.

(** *** Command handlers *)

Definition skills_update (m : option (gmap string Z))
  : AirtableClient.CharacterUpdate :=
  {| AirtableClient.update_skills := m;
     AirtableClient.update_current_hp := None;
     AirtableClient.update_inventory := None;
     AirtableClient.update_x_position := None;
     AirtableClient.update_y_position := None |}.

Definition processAttackCommand (character : Character)
    (parsedIntent : ParsedIntent) (gameInstance : GameInstance)
  : M (ActionResult * Character) :=
  let goblinEnemy := goblinEnemy in
  let skillId := or_string (skill_suggested parsedIntent) "swordsmanship" in
  match skills character with
  | None => throw "Cannot read properties of undefined"
  | Some characterSkills =>
    let skillLevel := level_of characterSkills skillId in
    d1 ← rollD20;
    let attackRoll := d1 + skillLevel in
    d2 ← rollD20;
    let defenseRoll :=
      d2 + level_of (default ∅ (skills goblinEnemy)) "dodge" in
    let hit := bool_decide (attackRoll >= defenseRoll) in
    let damage :=
      if hit then
        let damage := Z.max 1 (skillLevel / 5 + 1) in
        if decide (attackRoll - skillLevel = 20) then damage * 2 else damage
      else 0 in
    u ← Math_random;
    let leveledUp := CombatSystem.below_chance (u * 100)%Q skillLevel in
    let characterSkills :=
      if leveledUp
      then <[skillId := Z.min (skillLevel + 1) 100]> characterSkills
      else characterSkills in
    let character := set_stats (set_skills characterSkills character) character in
    (if leveledUp then
       updateCharacter (character_id character)
         (skills_update (skills character))
     else mret true);;
    mret ({| success := hit;
             character := Some (character_name character);
             result_character_id := None;
             narration := Some (
               if hit then
                 character_name character +:+ " strikes the goblin for "
                   +:+ pretty damage +:+ " damage!"
               else
                 character_name character
                   +:+ " swings at the goblin but misses!");
             detail :=
               attack_detail (enemy_name goblinEnemy) skillId
                 (attackRoll - skillLevel) attackRoll defenseRoll damage
                 (bool_decide (attackRoll - skillLevel = 20))
                 {| leveledUp := leveledUp;
                    newLevel := characterSkills !! skillId;
                    oldLevel := skillLevel |} |}, character)
  end.

(** [Math.random() > 0.5 ? 1 : -1] *)
Definition random_step : M Z :=
  u ← Math_random;
  mret (if Qlt_le_dec (1 # 2) u then 1 else -1).

Definition processMoveCommand (character : Character)
    (parsedIntent : ParsedIntent) (gameInstance : GameInstance)
  : M (ActionResult * Character) :=
  dx ← random_step;
  let newX := Z.max 1 (Z.min 18 (x_position character + dx)) in
  dy ← random_step;
  let newY := Z.max 1 (Z.min 8 (y_position character + dy)) in
  updateCharacter (character_id character)
    {| AirtableClient.update_skills := None;
       AirtableClient.update_current_hp := None;
       AirtableClient.update_inventory := None;
       AirtableClient.update_x_position := Some newX;
       AirtableClient.update_y_position := Some newY |};;
  mret ({| success := true;
           character := Some (character_name character);
           result_character_id := None;
           narration := Some (character_name character
                                +:+ " moves to a new position.");
           detail := move_detail |}, character).

Definition processSkillCommand (character : Character)
    (parsedIntent : ParsedIntent) (gameInstance : GameInstance)
  : M (ActionResult * Character) :=
  let skillId := or_string (skill_suggested parsedIntent) "perception" in
  match skills character with
  | None => throw "Cannot read properties of undefined"
  | Some characterSkills =>
    let skillLevel := level_of characterSkills skillId in
    roll ← rollD20;
    let total := roll + skillLevel in
    let dc := 16 in
    let success := bool_decide (total >= dc) in
    u ← Math_random;
    let leveledUp := CombatSystem.below_chance (u * 100)%Q skillLevel in
    let characterSkills :=
      if leveledUp
      then <[skillId := Z.min (skillLevel + 1) 100]> characterSkills
      else characterSkills in
    let character := set_stats (set_skills characterSkills character) character in
    (if leveledUp then
       updateCharacter (character_id character)
         (skills_update (skills character))
     else mret true);;
    mret ({| success := success;
             character := Some (character_name character);
             result_character_id := None;
             narration := Some (
               if success then
                 character_name character +:+ " successfully uses "
                   +:+ formatSkillName skillId +:+ "!"
               else
                 character_name character +:+ " attempts to use "
                   +:+ formatSkillName skillId +:+ " but fails.");
             detail :=
               skill_check_detail skillId roll total dc
                 {| leveledUp := leveledUp;
                    newLevel := characterSkills !! skillId;
                    oldLevel := skillLevel |} |}, character)
  end.

Definition processItemCommand (character : Character)
    (parsedIntent : ParsedIntent) (gameInstance : GameInstance)
  : M (ActionResult * Character) :=
  if bool_decide ("health_potion" ∈ inventory character) then
    let healing := 15 in
    let newHP := Z.min (max_hp character) (current_hp character + healing) in
    let actualHealing := newHP - current_hp character in
    let newInventory :=
      filter (fun item => item ≠ "health_potion") (inventory character) in
    updateCharacter (character_id character)
      {| AirtableClient.update_skills := None;
         AirtableClient.update_current_hp := Some newHP;
         AirtableClient.update_inventory := Some newInventory;
         AirtableClient.update_x_position := None;
         AirtableClient.update_y_position := None |};;
    mret ({| success := true;
             character := Some (character_name character);
             result_character_id := None;
             narration := Some (
               character_name character
                 +:+ " drinks a health potion and recovers "
                 +:+ pretty actualHealing +:+ " HP.");
             detail := item_use_detail (Some "Health Potion")
                         (Some actualHealing) |}, character)
  else
    mret ({| success := false;
             character := Some (character_name character);
             result_character_id := None;
             narration := Some (character_name character
                                  +:+ " doesn't have any usable items.");
             detail := item_use_detail None None |}, character).






(** *** The tick *)




(** Runs [m] and hands its outcome, exception included, to the caller. *)
Definition attempt {A} (m : M A) : M (Outcome A) :=
  fun w => let '(o, w') := m w in (Return o, w').





End GameTick.


From Stdlib Require Import Sorted Permutation.
(** ** combat-system.js: initiative, abilities and energy *)

Module CombatAbilities.

Definition armorStats : gmap string Z :=
  {[ "cloth_armor" := 1; "leather_armor" := 3; "iron_shield" := 3 ]}.

Definition getArmorDefense (armorId : option string) : Z :=
  match armorId with
  | Some a => level_of armorStats a
  | None => 0
  end.

(** A participant with the two fields that [calculateInitiative] adds to
    its copy. *)
Record Ranked := mkRanked {
  participant : Combatant;
  initiative : Z;
  initiativeRoll : Z
}.

(** The callback of [participants.map]. *)
Definition rank (participant : Combatant) : M Ranked :=
  let perception :=
    level_of (default ∅ (skills participant)) "perception" in
  roll ← CombatSystem.rollD20;
  let initiative := roll + perception / 10 in
  mret {| participant := participant;
          initiative := initiative;
          initiativeRoll := roll |}.

(** [participants.map(...)], the callbacks run from left to right. *)
Fixpoint rank_all (participants : list Combatant) : M (list Ranked) :=
  match participants with
  | [] => mret []
  | p :: rest =>
    r ← rank p;
    rs ← rank_all rest;
    mret (r :: rs)
  end.

(** [Array.prototype.sort] with the comparator
    [(a, b) => b.initiative - a.initiative].  The sort is stable
    (ECMAScript 2019), which fixes its result; it is computed here by
    insertion: an element goes before the first one that does not have a
    higher initiative. *)
Fixpoint insert_ranked (x : Ranked) (sorted : list Ranked) : list Ranked :=
  match sorted with
  | [] => [x]
  | y :: rest =>
    if decide (initiative y > initiative x)
    then y :: insert_ranked x rest
    else x :: y :: rest
  end.

Fixpoint sort_by_initiative (l : list Ranked) : list Ranked :=
  match l with
  | [] => []
  | x :: rest => insert_ranked x (sort_by_initiative rest)
  end.

Definition calculateInitiative (participants : list Combatant)
  : M (list Ranked) :=
  ranked ← rank_all participants;
  mret (sort_by_initiative ranked).

(** [character.skills?.[skillId] || 0] is guarded. *)
Definition canUseReaction (character : Combatant) (skillId : string) : bool :=
  let skillLevel := level_of (default ∅ (skills character)) skillId in
  bool_decide (skillLevel >= 5).

Record MissingSkill := mkMissingSkill {
  missing_skill : string;
  missing_required : Z;
  missing_current : Z
}.

Record RequirementCheck := mkRequirementCheck {
  meetsRequirements : bool;
  missingSkills : list MissingSkill
}.

(** The loop over [Object.entries(requirements)], with the skill map
    already at hand. *)
Fixpoint missing_among (skills : gmap string Z)
    (requirements : list (string * Z)) : list MissingSkill :=
  match requirements with
  | [] => []
  | (skillId, minLevel) :: rest =>
    let currentLevel := level_of skills skillId in
    if decide (currentLevel < minLevel)
    then {| missing_skill := skillId;
            missing_required := minLevel;
            missing_current := currentLevel |} :: missing_among skills rest
    else missing_among skills rest
  end.

(** [requirements] is an object; its entries are taken in order.
    [character.skills[skillId]] is read in the body of the loop only, so
    a missing skill map raises when there is at least one entry. *)
Definition checkAbilityRequirements (character : Combatant)
    (requirements : list (string * Z)) : Outcome RequirementCheck :=
  match requirements, skills character with
  | [], _ => Return {| meetsRequirements := true; missingSkills := [] |}
  | _ :: _, None => Throw "Cannot read properties of undefined"
  | _ :: _, Some skills =>
    let missingSkills := missing_among skills requirements in
    Return {| meetsRequirements := bool_decide (length missingSkills = 0%nat);
              missingSkills := missingSkills |}
  end.

Fixpoint bonus_among (skills : gmap string Z)
    (requirements : list (string * Z)) (bonusPerRequirement totalBonus : Z) : Z :=
  match requirements with
  | [] => totalBonus
  | (skillId, minLevel) :: rest =>
    let currentLevel := level_of skills skillId in
    let excess := Z.max 0 (currentLevel - minLevel) in
    bonus_among skills rest bonusPerRequirement
      (totalBonus + excess * bonusPerRequirement)
  end.

Definition calculateAbilityBonus (character : Combatant)
    (requirements : list (string * Z)) (bonusPerRequirement : Z) : Outcome Z :=
  match requirements, skills character with
  | [], _ => Return 0
  | _ :: _, None => Throw "Cannot read properties of undefined"
  | _ :: _, Some skills =>
    Return (bonus_among skills requirements bonusPerRequirement 0)
  end.

(** A character with the energy field that the two energy methods read
    and write, next to the combat fields. *)
Record EnergyUser := mkEnergyUser {
  user_stats :> Combatant;
  current_energy : Z
}.

Definition set_current_energy (v : Z) (c : EnergyUser) : EnergyUser :=
  mkEnergyUser (user_stats c) v.

Definition consumeEnergy (character : EnergyUser) (energyCost : Z)
  : bool * EnergyUser :=
  if decide (current_energy character >= energyCost) then
    (true, set_current_energy (current_energy character - energyCost) character)
  else (false, character).

Definition restoreEnergy (character : EnergyUser) (amount : Z)
  : Z * EnergyUser :=
  let maxEnergy :=
    CombatSystem.calculateMaxEnergy
      (CombatSystem.calculateTotalLevel (skills character)) in
  let newEnergy := Z.min maxEnergy (current_energy character + amount) in
  let actualRestore := newEnergy - current_energy character in
  (actualRestore, set_current_energy newEnergy character).

End CombatAbilities.


(** ** llm-integration.js: the fallback parser of the engine *)

Module LLMIntegration.

(** [hay.includes(needle)] *)
Fixpoint includes (needle hay : string) : bool :=
  String.prefix needle hay ||
  match hay with
  | EmptyString => false
  | String _ rest => includes needle rest
  end.

(** The loop that looks for an enemy named in the input, with the first
    enemy as the default. *)
Definition find_target (lowercaseInput : string) (currentEnemies : list Enemy)
  : option string :=
  match currentEnemies with
  | [] => None
  | first :: _ =>
    match find (fun enemy : Enemy =>
                  includes (JSString.toLowerCase (enemy_name enemy))
                    lowercaseInput) currentEnemies with
    | Some enemy => Some (enemy_id enemy)
    | None => Some (enemy_id first)
    end
  end.

Definition fallbackParser (input : string) (availableSkills : list string)
    (currentEnemies : list Enemy) : ParsedIntent :=
  let lowercaseInput := JSString.trim (JSString.toLowerCase input) in
  let words := JSString.split_whitespace lowercaseInput in
  if JSString.some_included words ["attack"; "hit"; "strike"; "fight"; "kill"]
  then
    let target := find_target lowercaseInput currentEnemies in
    let skillSuggested :=
      if JSString.some_included words ["sword"; "blade"; "slash"]
      then "swordsmanship"
      else if JSString.some_included words ["bow"; "arrow"; "shoot"]
      then "archery"
      else if JSString.some_included words ["axe"; "chop"]
      then "axe_fighting"
      else if JSString.some_included words ["punch"; "kick"; "fist"]
      then "unarmed_combat"
      else "swordsmanship" in
    {| intent := "attack"; intent_target := target;
       skill_suggested := Some skillSuggested; confidence := 8 # 10 |}
  else if JSString.some_included words ["move"; "go"; "walk"; "run"; "step"]
  then
    let target :=
      if JSString.some_included words ["north"; "up"; "forward"]
      then Some "north"
      else if JSString.some_included words ["south"; "down"; "back"]
      then Some "south"
      else if JSString.some_included words ["east"; "right"]
      then Some "east"
      else if JSString.some_included words ["west"; "left"]
      then Some "west"
      else None in
    {| intent := "move"; intent_target := target;
       skill_suggested := Some "navigation"; confidence := 7 # 10 |}
  else if JSString.some_included words
            ["defend"; "block"; "guard"; "shield"; "protect"]
  then {| intent := "use_skill"; intent_target := None;
          skill_suggested := Some "shield_use"; confidence := 8 # 10 |}
  else if JSString.some_included words ["use"; "drink"; "consume"; "apply"]
  then
    let item :=
      if JSString.some_included words ["potion"; "health"; "healing"]
      then Some "health_potion"
      else if JSString.some_included words ["energy"; "mana"]
      then Some "energy_potion"
      else None in
    {| intent := "use_item"; intent_target := item;
       skill_suggested := None; confidence := 7 # 10 |}
  else if JSString.some_included words ["cast"; "spell"; "magic"]
  then
    let skillSuggested :=
      if JSString.some_included words ["fire"; "flame"; "burn"]
      then "fire_magic"
      else if JSString.some_included words ["ice"; "frost"; "freeze"]
      then "ice_magic"
      else if JSString.some_included words ["lightning"; "thunder"; "shock"]
      then "lightning_magic"
      else if JSString.some_included words ["heal"; "cure"; "restore"]
      then "healing_magic"
      else "arcane_magic" in
    {| intent := "use_skill"; intent_target := None;
       skill_suggested := Some skillSuggested; confidence := 6 # 10 |}
  else if JSString.some_included words
            ["examine"; "look"; "search"; "inspect"; "check"]
  then {| intent := "interact"; intent_target := None;
          skill_suggested := Some "perception"; confidence := 6 # 10 |}
  else {| intent := "unknown"; intent_target := None;
          skill_suggested := None; confidence := 1 # 10 |}.

End LLMIntegration.

(** ** game-engine.js: the move handler *)

Module EngineMove.

Record Position := mkPosition {
  position_x : Z;
  position_y : Z
}.

Record MoveResult := mkMoveResult {
  move_success : bool;
  move_character : string;
  oldPosition : Position;
  newPosition : Position
}.

Definition processMoveCommand (character : Character)
    (parsedIntent : ParsedIntent) (gameInstance : GameInstance)
  : M (MoveResult * Character) :=
  dx ← GameTick.random_step;
  let newX := Z.max 1 (Z.min 18 (x_position character + dx)) in
  dy ← GameTick.random_step;
  let newY := Z.max 1 (Z.min 8 (y_position character + dy)) in
  AirtableClient.updateCharacter (character_id character)
    {| AirtableClient.update_skills := None;
       AirtableClient.update_current_hp := None;
       AirtableClient.update_inventory := None;
       AirtableClient.update_x_position := Some newX;
       AirtableClient.update_y_position := Some newY |};;
  mret ({| move_success := true;
           move_character := character_name character;
           oldPosition := {| position_x := x_position character;
                             position_y := y_position character |};
           newPosition := {| position_x := newX; position_y := newY |} |},
        character).

End EngineMove.

(** ** api/game-tick.js: the request handler *)

Module TickEndpoint.







End TickEndpoint.

(** ** game-engine.js: abilities *)

Module EngineAbilities.

(** An ability as [getAbilities] hands it out, with the fields that the
    engine reads; [requirements] is the parsed object, its entries in
    order. *)
Record Ability := mkAbility {
  ability_id : string;
  requirements : list (string * Z);
  energy_cost : Z
}.

Definition has_ability_id (abilityId : string) (a : Ability) : bool :=
  bool_decide (ability_id a = abilityId).

(** [abilities] is [currentGameData.abilities], null until the engine
    is initialised. *)
Definition checkAbilityRequirements (abilities : option (list Ability))
    (character : CombatAbilities.EnergyUser) (abilityId : string)
  : Outcome bool :=
  match abilities ≫= find (has_ability_id abilityId) with
  | None => Return false
  | Some ability =>
    match CombatAbilities.checkAbilityRequirements
            (CombatAbilities.user_stats character) (requirements ability) with
    | Throw message => Throw message
    | Return check =>
      Return (CombatAbilities.meetsRequirements check
              && bool_decide (CombatAbilities.current_energy character
                              >= energy_cost ability))
    end
  end.

(** [candidates.filter(ability => checkAbilityRequirements(character,
    ability.ability_id))]: an exception of the callback ends the
    filter. *)
Fixpoint filter_available (abilities : option (list Ability))
    (character : CombatAbilities.EnergyUser) (candidates : list Ability)
  : Outcome (list Ability) :=
  match candidates with
  | [] => Return []
  | ability :: rest =>
    match checkAbilityRequirements abilities character (ability_id ability) with
    | Throw message => Throw message
    | Return keep =>
      match filter_available abilities character rest with
      | Throw message => Throw message
      | Return kept => Return (if keep then ability :: kept else kept)
      end
    end
  end.

Definition getAvailableAbilities (abilities : option (list Ability))
    (character : CombatAbilities.EnergyUser) : Outcome (list Ability) :=
  match abilities with
  | None => Return []
  | Some candidates => filter_available abilities character candidates
  end.

End EngineAbilities.

(** ** game-engine.js: the skill check of the engine *)

Module EngineSkill.

Record SkillResult := mkSkillResult {
  skill_success : bool;
  skill_skillId : option string;
  skill_roll : Z;
  skill_total : Z;
  skill_dc : Z;
  skill_skillProgress : CombatSystem.ProgressResult;
  skill_character : string
}.

(** [object[skillId]]: a property key is a string, and [null] used as a
    key is the string "null". *)
Definition property_key (skillId : option string) : string :=
  match skillId with
  | Some s => s
  | None => "null"
  end.

(** [character.skills[skillId]] is a TypeError when [character.skills]
    is undefined. *)
Definition processSkillCommand (character : Character)
    (parsedIntent : ParsedIntent) (gameInstance : GameInstance)
  : M (SkillResult * Character) :=
  let skillId := skill_suggested parsedIntent in
  match skills character with
  | None => throw "Cannot read properties of undefined"
  | Some characterSkills =>
    let skillLevel := level_of characterSkills (property_key skillId) in
    roll ← CombatSystem.rollD20;
    let total := roll + skillLevel in
    let dc := 16 in
    let success := bool_decide (total >= dc) in
    '(skillProgress, progressed) ←
      CombatSystem.processSkillProgression character (property_key skillId);
    let character := set_stats progressed character in
    (if CombatSystem.progress_leveledUp skillProgress then
       AirtableClient.updateCharacter (character_id character)
         {| AirtableClient.update_skills := skills character;
            AirtableClient.update_current_hp := None;
            AirtableClient.update_inventory := None;
            AirtableClient.update_x_position := None;
            AirtableClient.update_y_position := None |};;
       mret tt
     else mret tt);;
    mret ({| skill_success := success;
             skill_skillId := skillId;
             skill_roll := roll;
             skill_total := total;
             skill_dc := dc;
             skill_skillProgress := skillProgress;
             skill_character := character_name character |}, character)
  end.

End EngineSkill.

(** ** Notions used in the statements *)

(** The maximum that [applyHealing] clamps to: the maximal health
    derived from the target's skills. *)
Definition maxHP_of (target : Combatant) : Z :=
  CombatSystem.calculateMaxHP (CombatSystem.calculateTotalLevel (skills target)).

(** The lifecycle order active, knocked out, dead; an object without a
    status stands at the start. *)
Definition status_rank (s : option Status) : nat :=
  match s with
  | Some knocked_out => 1
  | Some dead => 2
  | Some active | None => 0
  end.

(** The draw that the next call of [Math.random] returns. *)
Definition next_draw (w : World) : Q :=
  random_unit (raw_words (random w) (cursor (random w))).

(** The world after [n] calls of [Math.random]. *)
Definition after_draws (n : nat) (w : World) : World :=
  mkWorld (store w)
    (mkRandomSource (raw_words (random w)) (n + cursor (random w)))
    (clock w).

(** [Math.floor(u * 20) + 1] *)
Definition d20_of (u : Q) : Z := Qfloor (u * 20) + 1.

(** The record that [calculateAttackRoll] builds from a die roll. *)
Definition attack_roll_of (die skillLevel : Z)
    (modifiers : CombatSystem.Modifiers) : CombatSystem.RollResult :=
  let itemBonus := or_zero (CombatSystem.item modifiers) in
  let buffs := or_zero (CombatSystem.buffs modifiers) in
  let debuffs := or_zero (CombatSystem.debuffs modifiers) in
  let skillPenalty := if decide (skillLevel = 0) then -5 else 0 in
  {| CombatSystem.roll := die;
     CombatSystem.total :=
       die + skillLevel + itemBonus + buffs - debuffs + skillPenalty;
     CombatSystem.critical := bool_decide (die = 20);
     CombatSystem.fumble := bool_decide (die = 1);
     CombatSystem.breakdown :=
       {| CombatSystem.breakdown_base := die;
          CombatSystem.breakdown_skill := skillLevel + skillPenalty;
          CombatSystem.breakdown_item := itemBonus;
          CombatSystem.breakdown_buffs := buffs;
          CombatSystem.breakdown_debuffs := - debuffs |} |}.

(** The level that [calculateDefenseRoll] rolls with. *)
Definition defense_level (character : Combatant) : Z :=
  let skills := default ∅ (skills character) in
  Z.max (or_zero (skills !! "dodge"))
    (Z.max (or_zero (skills !! "shield_use")) (or_zero (skills !! "parry"))).

(** The modifiers that [resolveAttack] hands to [calculateDamage]. *)
Definition damage_modifiers (attackRoll : CombatSystem.RollResult)
    (attackModifiers : CombatSystem.Modifiers) : CombatSystem.Modifiers :=
  {| CombatSystem.item := None;
     CombatSystem.buffs := None;
     CombatSystem.debuffs := None;
     CombatSystem.critical_hit := Some (CombatSystem.critical attackRoll);
     CombatSystem.ability :=
       Some (or_zero (CombatSystem.ability attackModifiers)) |}.

(** ** Sample data *)

Module Sample.

Definition source : RandomSource :=
  {| raw_words := fun n => (N.of_nat n * 1234567890123457 + 2 ^ 52)%N;
     cursor := 0 |}.

Definition hero_skills : gmap string Z :=
  {[ "swordsmanship" := 5; "dodge" := 3 ]}.

Definition hero (id hp : Z) (items : list string) (st : Status) : Character :=
  {| character_id := id;
     character_name := "Hero";
     max_hp := 20;
     inventory := items;
     x_position := 10;
     y_position := 5;
     stats := {| current_hp := hp;
                 status := Some st;
                 skills := Some hero_skills;
                 equipment := Some (mkEquipment (Some "rusty_sword") None) |} |}.

(** An object with health only: no status, no skills, no equipment. *)
Definition bare (hp : Z) : Combatant :=
  {| current_hp := hp; status := None; skills := None; equipment := None |}.

Definition instance (tick : Z) (party : list Z) : GameInstance :=
  {| instance_id := 7;
     dungeon_id := "goblin_warren";
     characters := party;
     current_room_index := 0;
     game_state := game_active;
     current_tick := tick;
     last_activity := 0 |}.

Definition command (id who : Z) (text : option string) : Command :=
  {| command_id := id;
     command_instance_id := 7;
     command_character_id := who;
     tick_number := 3;
     raw_input := text;
     command_result := None |}.

Definition world (party : list Z) (heroes : list Character)
    (commands : list Command) : World :=
  {| store := {| game_instances := [instance 3 party];
                 character_table := heroes;
                 command_table := commands;
                 dungeon_table :=
                   [("goblin_warren"%string, mkDungeon ["room_1"; "room_2"])] |};
     random := source;
     clock := 1000 |}.

Definition empty_world : World := world [] [] [].






End Sample.

(** ** Frames and schedules *)



(** The stored record of a character. *)
Definition stored_character (w : World) (characterId : Z) : option Character :=
  find (AirtableClient.has_character_id characterId) (character_table (store w)).

(** A computation leaves an observation of the world as it is, whether
    it returns or throws. *)
Definition leaves {X A} (f : World -> X) (m : M A) : Prop :=
  forall w, f (snd (m w)) = f w.




(** The world after update(characters, recordId, fields). *)
Definition with_character_update (characterId : Z)
    (updates : AirtableClient.CharacterUpdate) (w : World) : World :=
  set_store
    {| game_instances := game_instances (store w);
       character_table :=
         update_first (AirtableClient.has_character_id characterId)
           (AirtableClient.apply_update updates) (character_table (store w));
       command_table := command_table (store w);
       dungeon_table := dungeon_table (store w) |} w.

(** What no command handler touches: every table but the characters,
    the clock and the words of the random source. *)
Definition outside_characters (w : World)
  : list GameInstance * list Command * list (string * Dungeon) * Z * (nat -> N) :=
  (game_instances (store w), command_table (store w), dungeon_table (store w),
   clock w, raw_words (random w)).


(** The world after update(commands, recordId, fields). *)
Definition with_command_result (commandId : Z) (result : ActionResult)
    (w : World) : World :=
  set_store
    {| game_instances := game_instances (store w);
       character_table := character_table (store w);
       command_table :=
         update_first (fun c => bool_decide (command_id c = commandId))
           (GameTick.set_command_result result) (command_table (store w));
       dungeon_table := dungeon_table (store w) |} w.

(** The world after update(game_instances, recordId, fields). *)
Definition with_tick (instanceId tick activity : Z) (w : World) : World :=
  set_store
    {| game_instances :=
         update_first (AirtableClient.has_instance_id instanceId)
           (GameTick.set_tick tick activity) (game_instances (store w));
       character_table := character_table (store w);
       command_table := command_table (store w);
       dungeon_table := dungeon_table (store w) |} w.








(** ** Notions used in the further statements *)

(** The modifiers with the critical flag set or cleared. *)
Definition with_critical (flag : bool) (modifiers : CombatSystem.Modifiers)
  : CombatSystem.Modifiers :=
  {| CombatSystem.item := CombatSystem.item modifiers;
     CombatSystem.buffs := CombatSystem.buffs modifiers;
     CombatSystem.debuffs := CombatSystem.debuffs modifiers;
     CombatSystem.ability := CombatSystem.ability modifiers;
     CombatSystem.critical_hit := Some flag |}.

(** The maximum that [restoreEnergy] clamps to. *)
Definition maxEnergy_of (character : Combatant) : Z :=
  CombatSystem.calculateMaxEnergy
    (CombatSystem.calculateTotalLevel (skills character)).

(** A requirement that the skill map satisfies. *)
Definition satisfied (skills : gmap string Z) (requirement : string * Z) : Prop :=
  snd requirement <= level_of skills (fst requirement).

#[global] Instance satisfied_dec skills requirement :
  Decision (satisfied skills requirement).
Proof. unfold satisfied. apply _. Defined.

(** By how much the skill map exceeds a requirement. *)
Definition excess (skills : gmap string Z) (requirement : string * Z) : Z :=
  Z.max 0 (level_of skills (fst requirement) - snd requirement).

(** The sum of a list of integers. *)
Definition sum_list (l : list Z) : Z := foldr Z.add 0 l.

(** The order that [calculateInitiative] sorts by. *)
Definition ranks_before (a b : CombatAbilities.Ranked) : Prop :=
  CombatAbilities.initiative a >= CombatAbilities.initiative b.

(** A string made of white space only. *)
Fixpoint all_whitespace (s : string) : bool :=
  match s with
  | EmptyString => true
  | String c rest => JSString.is_whitespace c && all_whitespace rest
  end.



(** A computation that returns, whatever the world. *)
Definition returns {A} (m : M A) : Prop :=
  forall w, exists a w', m w = (Return a, w').


(** ** Notions for the statements about the engine *)

(** The character reaches every level that the ability requires and has
    the energy that it costs. *)
Definition usable (character : CombatAbilities.EnergyUser)
    (ability : EngineAbilities.Ability) : Prop :=
  Forall (satisfied
            (default ∅ (skills (CombatAbilities.user_stats character))))
    (EngineAbilities.requirements ability) /\
  EngineAbilities.energy_cost ability
    <= CombatAbilities.current_energy character.

#[global] Instance usable_dec character ability :
  Decision (usable character ability).
Proof. unfold usable. apply _. Defined.

(** The first ability of the list with this identifier is usable. *)
Definition bearer_usable (abilities : list EngineAbilities.Ability)
    (character : CombatAbilities.EnergyUser) (abilityId : string) : Prop :=
  from_option (usable character) False
    (find (EngineAbilities.has_ability_id abilityId) abilities).

#[global] Instance bearer_usable_dec abilities character abilityId :
  Decision (bearer_usable abilities character abilityId).
Proof. unfold bearer_usable. destruct (find _ _); apply _. Defined.

(** The first ability of the list that bears the identifier of
    [ability] is usable. *)
Definition first_bearer_usable (abilities : list EngineAbilities.Ability)
    (character : CombatAbilities.EnergyUser)
    (ability : EngineAbilities.Ability) : Prop :=
  bearer_usable abilities character (EngineAbilities.ability_id ability).

#[global] Instance first_bearer_usable_dec abilities character ability :
  Decision (first_bearer_usable abilities character ability).
Proof. unfold first_bearer_usable. apply _. Defined.


(** An enemy after a call of [applyDamage] on it. *)
Definition struck (damage : Z) (enemy : Enemy) : Enemy :=
  mkEnemy (enemy_id enemy) (enemy_name enemy) (enemy_max_hp enemy)
    (snd (CombatSystem.applyDamage enemy damage)).

(** ** Notions for the statement about skill names *)

(** The string read character by character: an underscore becomes a
    space, and the character at the start of the string or after an
    underscore is put in upper case. *)
Fixpoint title_case (start : bool) (s : string) : string :=
  match s with
  | EmptyString => EmptyString
  | String c rest =>
    if decide (c = "_"%char) then String " "%char (title_case true rest)
    else String (if start then JSString.upper_char c else c)
           (title_case false rest)
  end.

(** The character occurs in the string. *)
Fixpoint occurs (c : ascii) (s : string) : bool :=
  match s with
  | EmptyString => false
  | String c' rest => bool_decide (c' = c) || occurs c rest
  end.

(** ** Notions for the statement about stored results *)






(** * Properties *)

(** ** Running the monad *)

Lemma run_bind {St A B} (m : StateExn St A) (k : A -> StateExn St B) (s : St) :
  (m ≫= k) s =
  match m s with
  | (Return a, s') => k a s'
  | (Throw e, s') => (Throw e, s')
  end.
Proof. reflexivity. Qed.

Lemma run_ret {St A} (a : A) (s : St) :
  (mret a : StateExn St A) s = (Return a, s).
Proof. reflexivity. Qed.

(** ** The random source *)

Lemma random_unit_range raw :
  (0 <= random_unit raw)%Q /\ (random_unit raw < 1)%Q.
Proof.
  unfold random_unit, Qle, Qlt; simpl Qnum; simpl Qden.
  assert (H : (raw mod 2 ^ 53 < 2 ^ 53)%N)
    by (apply N.mod_upper_bound; discriminate).
  revert H. generalize (raw mod 2 ^ 53)%N as k. intros k H.
  change (Z.pos (2 ^ 53)) with 9007199254740992.
  change (2 ^ 53)%N with 9007199254740992%N in H.
  lia.
Qed.

Lemma Math_random_run w :
  Math_random w = (Return (next_draw w), after_draws 1 w).
Proof. reflexivity. Qed.

Lemma after_draws_0 w : after_draws 0 w = w.
Proof. destruct w as [s [ws c] k]. reflexivity. Qed.

Lemma after_draws_add n k w :
  after_draws n (after_draws k w) = after_draws (n + k) w.
Proof. unfold after_draws; simpl. do 2 f_equal. lia. Qed.

Lemma store_after_draws n w : store (after_draws n w) = store w.
Proof. reflexivity. Qed.

Lemma d20_range (u : Q) :
  (0 <= u)%Q -> (u < 1)%Q -> 1 <= d20_of u <= 20.
Proof.
  intros H0 H1. unfold d20_of.
  assert (0 <= Qfloor (u * 20)).
  { change 0 with (Qfloor 0). apply Qfloor_resp_le.
    apply Qmult_le_0_compat; [done|]. discriminate. }
  assert (Qfloor (u * 20) < 20).
  { rewrite Zlt_Qlt. eapply Qle_lt_trans; [apply Qfloor_le|].
    change (inject_Z 20) with (1 * 20)%Q.
    apply Qmult_lt_compat_r; [reflexivity | done]. }
  lia.
Qed.


Lemma rollD20_range w :
  1 <= d20_of (next_draw w) <= 20.
Proof. apply d20_range; apply random_unit_range. Qed.

(** ** Combat rules *)

Section Combat.
Import CombatSystem.


Lemma level_of_insert (m : gmap string Z) (key : string) (v : Z) :
  level_of (<[key := v]> m) key = v.
Proof. unfold level_of. rewrite lookup_insert_eq. reflexivity. Qed.

Lemma progressChance_pos (L : Z) (p : positive) :
  L + 10 = Z.pos p -> progressChance L = (100 * (1 # p))%Q.
Proof. intros H. unfold progressChance. rewrite H. reflexivity. Qed.

Lemma progressChance_range (L : Z) :
  0 <= L -> (0 < progressChance L)%Q /\ (progressChance L <= 100)%Q.
Proof.
  intros HL. destruct (L + 10) as [|p|p] eqn:E; try lia.
  rewrite (progressChance_pos L p E).
  unfold Qlt, Qle, Qmult; simpl. lia.
Qed.

Lemma progressChance_decreasing (L1 L2 : Z) :
  0 <= L1 -> L1 < L2 -> (progressChance L2 < progressChance L1)%Q.
Proof.
  intros H1 H2.
  destruct (L1 + 10) as [|p1|p1] eqn:E1; try lia.
  destruct (L2 + 10) as [|p2|p2] eqn:E2; try lia.
  rewrite (progressChance_pos L1 p1 E1), (progressChance_pos L2 p2 E2).
  unfold Qlt, Qmult; simpl. lia.
Qed.

Lemma below_chance_spec (roll : Q) (L : Z) :
  0 <= L -> below_chance roll L = true <-> (roll < progressChance L)%Q.
Proof.
  intros HL. unfold below_chance.
  destruct (decide (L + 10 = 0)); [lia|].
  destruct (Qlt_le_dec roll (progressChance L)) as [Hlt|Hle].
  - tauto.
  - split; [discriminate|]. intros Hlt. exfalso.
    exact (Qlt_not_le _ _ Hlt Hle).
Qed.

Lemma processSkillProgression_run (character : Combatant) (skillId : string)
    (m : gmap string Z) (w : World) :
  skills character = Some m ->
  processSkillProgression character skillId w =
  let L := level_of m skillId in
  if below_chance (next_draw w * 100)%Q L then
    (Return ({| progress_leveledUp := true;
                progress_newLevel := Z.min (L + 1) 100;
                progress_oldLevel := L |},
             set_skills (<[skillId := Z.min (L + 1) 100]> m) character),
     after_draws 1 w)
  else
    (Return ({| progress_leveledUp := false;
                progress_newLevel := L;
                progress_oldLevel := L |}, character),
     after_draws 1 w).
Proof.
  intros Hs. unfold processSkillProgression. rewrite Hs.
  rewrite run_bind, Math_random_run. cbv zeta.
  destruct (below_chance _ _); reflexivity.
Qed.

(** C8.  For a skill level L between 0 and 100 the progression chance
    100/(L+10) lies in (0,100] and is strictly decreasing in L;
    [processSkillProgression] levels up exactly when the draw is below
    that chance, the new level is then min(L+1, 100) (L+1 below the
    cap), and the level never decreases. *)
Theorem skill_progression_chance (character : Combatant) (skillId : string)
    (m : gmap string Z) (w : World) :
  skills character = Some m ->
  0 <= level_of m skillId <= 100 ->
  let L := level_of m skillId in
  ((0 < progressChance L)%Q /\ (progressChance L <= 100)%Q) /\
  (forall L', L < L' <= 100 -> (progressChance L' < progressChance L)%Q) /\
  exists r character' m',
    processSkillProgression character skillId w
      = (Return (r, character'), after_draws 1 w) /\
    skills character' = Some m' /\
    progress_oldLevel r = L /\
    progress_newLevel r = level_of m' skillId /\
    (progress_leveledUp r = true <->
       (next_draw w * 100 < progressChance L)%Q) /\
    (progress_leveledUp r = true ->
       level_of m' skillId = Z.min (L + 1) 100 /\
       (L < 100 -> level_of m' skillId = L + 1)) /\
    (progress_leveledUp r = false -> character' = character) /\
    L <= level_of m' skillId <= 100.
Proof.
  intros Hs HL L. split; [apply progressChance_range; lia|].
  split; [intros L' HL'; apply progressChance_decreasing; lia|].
  rewrite (processSkillProgression_run _ _ _ _ Hs). cbv zeta. fold L.
  pose proof (below_chance_spec (next_draw w * 100)%Q L (proj1 HL)) as Hb.
  destruct (below_chance (next_draw w * 100)%Q L) eqn:E.
  - eexists _, _, _. split; [reflexivity|]. split; [reflexivity|]. simpl.
    rewrite level_of_insert.
    repeat split; try tauto; try lia.
  - eexists _, _, _. split; [reflexivity|]. split; [exact Hs|]. simpl.
    fold L. repeat split; try tauto; try lia; try discriminate.
Qed.

(** *** Worked examples of the rules *)

(** An untrained attacker rolling 12 totals 7. *)
Example untrained_attack_total :
  total (attack_roll_of 12 0 no_modifiers) = 7.
Proof. reflexivity. Qed.

(** A critical hit with skill 25 and weapon damage 3 deals 16. *)
Example critical_damage :
  calculateDamage 25 3 (mkModifiers None None None None (Some true)) = 16.
Proof. reflexivity. Qed.

Lemma calculateDamage_at_least_1 (skillLevel weaponDamage : Z)
    (modifiers : Modifiers) :
  1 <= calculateDamage skillLevel weaponDamage modifiers.
Proof. unfold calculateDamage. lia. Qed.

(** *** Damage and healing *)

Lemma applyDamage_hp (target : Combatant) (amount : Z) :
  current_hp (snd (applyDamage target amount))
    = Z.max 0 (current_hp target - amount).
Proof.
  unfold applyDamage; simpl.
  destruct (bool_decide _); reflexivity.
Qed.

Lemma applyDamage_skills (target : Combatant) (amount : Z) :
  skills (snd (applyDamage target amount)) = skills target.
Proof.
  unfold applyDamage; simpl.
  destruct (bool_decide _); reflexivity.
Qed.

Lemma applyDamage_status (target : Combatant) (amount : Z) :
  status (snd (applyDamage target amount)) =
  if decide (Z.max 0 (current_hp target - amount) = 0) then
    Some (if decide (status target = Some active) then knocked_out else dead)
  else status target.
Proof.
  unfold applyDamage; simpl.
  destruct (decide (Z.max 0 (current_hp target - amount) = 0)) as [E|E].
  - rewrite bool_decide_eq_true_2 by exact E. reflexivity.
  - rewrite bool_decide_eq_false_2 by exact E. reflexivity.
Qed.

Lemma applyDamage_result (target : Combatant) (amount : Z) :
  let r := fst (applyDamage target amount) in
  damage_newHP r = current_hp (snd (applyDamage target amount)) /\
  (died r = true <-> damage_newHP r = 0) /\
  (wasKnockedOut r = true <-> current_hp target > 0 /\ damage_newHP r = 0).
Proof.
  cbv zeta. rewrite applyDamage_hp. unfold applyDamage; simpl.
  rewrite andb_true_iff, !bool_decide_eq_true. tauto.
Qed.

(** C7.  For a target whose health lies between 0 and its maximum and a
    non-negative amount, [applyDamage] and [applyHealing] leave the
    health between 0 and the maximum.  Damage that brings the health to
    0 moves an active target to knocked out and a knocked-out target to
    dead (so a second application after the first ends in dead); the
    status never moves backward and is left alone while health remains.
    Healing never lowers the health and never changes the status. *)
Theorem damage_healing_clamp_and_status (target : Combatant) (amount : Z) :
  0 <= amount ->
  0 <= current_hp target <= maxHP_of target ->
  let damaged := snd (applyDamage target amount) in
  let healed := snd (applyHealing target amount) in
  (0 <= current_hp damaged <= maxHP_of damaged /\
   current_hp damaged = Z.max 0 (current_hp target - amount)) /\
  (0 <= current_hp healed <= maxHP_of healed /\
   current_hp healed = Z.min (maxHP_of target) (current_hp target + amount)) /\
  (current_hp damaged = 0 -> status target = Some active ->
     status damaged = Some knocked_out) /\
  (current_hp damaged = 0 -> status target = Some knocked_out ->
     status damaged = Some dead) /\
  (current_hp damaged <> 0 -> status damaged = status target) /\
  (status_rank (status target) <= status_rank (status damaged))%nat /\
  (status target = Some active -> current_hp damaged = 0 ->
     forall again, 0 <= again ->
       status (snd (applyDamage damaged again)) = Some dead) /\
  current_hp target <= current_hp healed /\
  status healed = status target.
Proof.
  intros Ha Hhp damaged healed.
  assert (Hd : current_hp damaged = Z.max 0 (current_hp target - amount))
    by apply applyDamage_hp.
  assert (Hs : status damaged =
               if decide (Z.max 0 (current_hp target - amount) = 0) then
                 Some (if decide (status target = Some active)
                       then knocked_out else dead)
               else status target) by apply applyDamage_status.
  assert (Hm : maxHP_of damaged = maxHP_of target).
  { unfold maxHP_of, damaged. rewrite applyDamage_skills. reflexivity. }
  assert (Hh : current_hp healed
               = Z.min (maxHP_of target) (current_hp target + amount))
    by reflexivity.
  assert (Hmh : maxHP_of healed = maxHP_of target) by reflexivity.
  rewrite <- Hd in Hs.
  repeat split; try lia; try reflexivity.
  - intros H0 Hst. rewrite Hs, Hst.
    destruct (decide (current_hp damaged = 0)); [|lia].
    rewrite decide_True by reflexivity. reflexivity.
  - intros H0 Hst. rewrite Hs, Hst.
    destruct (decide (current_hp damaged = 0)); [|lia].
    rewrite decide_False by discriminate. reflexivity.
  - intros Hn. rewrite Hs. rewrite decide_False by exact Hn. reflexivity.
  - rewrite Hs. destruct (decide (current_hp damaged = 0)); [|lia].
    destruct (status target) as [[]|]; simpl; lia.
  - intros Hst H0 again Hag.
    assert (Hko : status damaged = Some knocked_out).
    { rewrite Hs, Hst. destruct (decide (current_hp damaged = 0)); [|lia].
      rewrite decide_True by reflexivity. reflexivity. }
    rewrite applyDamage_status, Hko.
    destruct (decide (Z.max 0 (current_hp damaged - again) = 0)); [|lia].
    rewrite decide_False by discriminate. reflexivity.
Qed.

(** *** Attack resolution *)

Lemma calculateAttackRoll_run (skillLevel : Z) (modifiers : Modifiers) w :
  calculateAttackRoll skillLevel modifiers w
    = (Return (attack_roll_of (d20_of (next_draw w)) skillLevel modifiers),
       after_draws 1 w).
Proof. reflexivity. Qed.

Lemma calculateDefenseRoll_run (character : Combatant) (modifiers : Modifiers) w :
  calculateDefenseRoll character modifiers w
    = (Return (attack_roll_of (d20_of (next_draw w))
                 (defense_level character) modifiers, character),
       after_draws 1 w).
Proof. reflexivity. Qed.

Lemma resolveAttack_run (attacker defender : Combatant) (skillId : string)
    (am dm : Modifiers) (m : gmap string Z) (w : World) :
  skills attacker = Some m ->
  let L := level_of m skillId in
  let ar := attack_roll_of (d20_of (next_draw w)) L am in
  let dr := attack_roll_of (d20_of (next_draw (after_draws 1 w)))
              (defense_level defender) dm in
  let h := bool_decide (total ar >= total dr) in
  let dmg :=
    if h then
      calculateDamage L (getWeaponDamage (equipment attacker ≫= main_hand))
        (damage_modifiers ar am)
    else 0 in
  resolveAttack attacker defender skillId am dm w
    = (Return ({| hit := h;
                  attackRoll := ar;
                  defenseRoll := dr;
                  damage := dmg;
                  actualDamage :=
                    if h then Z.min dmg (current_hp defender) else 0;
                  attack_critical := critical ar;
                  attack_fumble := fumble ar;
                  skillUsed := skillId;
                  skillLevel := L |}, attacker, defender),
       after_draws 2 w).
Proof.
  intros Hs. unfold resolveAttack. rewrite Hs. reflexivity.
Qed.

Lemma resolveAttack_no_skills (attacker defender : Combatant)
    (skillId : string) (am dm : Modifiers) (w : World) :
  skills attacker = None ->
  resolveAttack attacker defender skillId am dm w
    = (Throw "Cannot read properties of undefined", w).
Proof. intros Hs. unfold resolveAttack. rewrite Hs. reflexivity. Qed.

(** C5.  For an attacker that carries a skill map, [resolveAttack]
    returns a result whose two rolls are the attack roll and the
    defense roll it made; it reports a hit exactly when the attack
    total is at least the defense total; on a hit [actualDamage] is
    min(damage, defender.current_hp), so it never exceeds the
    defender's health (nor does the 0 of a miss exceed a non-negative
    health); attacker and defender are the same after the call and the
    record store is untouched. *)
Theorem resolveAttack_hit_and_clamp (attacker defender : Combatant)
    (skillId : string) (am dm : Modifiers) (m : gmap string Z) (w : World) :
  skills attacker = Some m ->
  exists r,
    resolveAttack attacker defender skillId am dm w
      = (Return (r, attacker, defender), after_draws 2 w) /\
    calculateAttackRoll (level_of m skillId) am w
      = (Return (attackRoll r), after_draws 1 w) /\
    calculateDefenseRoll defender dm (after_draws 1 w)
      = (Return (defenseRoll r, defender), after_draws 2 w) /\
    (hit r = true <-> total (attackRoll r) >= total (defenseRoll r)) /\
    (hit r = true ->
       actualDamage r = Z.min (damage r) (current_hp defender) /\
       actualDamage r <= current_hp defender) /\
    (hit r = false -> damage r = 0 /\ actualDamage r = 0) /\
    (0 <= current_hp defender -> actualDamage r <= current_hp defender) /\
    store (after_draws 2 w) = store w.
Proof.
  intros Hs. eexists. split; [apply (resolveAttack_run _ _ _ _ _ _ _ Hs)|].
  cbv zeta. simpl.
  split; [reflexivity|]. split; [reflexivity|].
  split; [apply bool_decide_eq_true|].
  destruct (bool_decide _); repeat split; try discriminate; try lia.
Qed.



(** *** The statements at sample inputs *)

Lemma sample_level : level_of Sample.hero_skills "swordsmanship" = 5.
Proof. reflexivity. Qed.

Lemma skill_progression_chance_witness :
  skills (Sample.hero 1 5 [] active) = Some Sample.hero_skills /\
  0 <= level_of Sample.hero_skills "swordsmanship" <= 100 /\
  (progressChance 5 <= 100)%Q.
Proof.
  assert (H1 : skills (Sample.hero 1 5 [] active) = Some Sample.hero_skills)
    by reflexivity.
  assert (H2 : 0 <= level_of Sample.hero_skills "swordsmanship" <= 100)
    by (rewrite sample_level; lia).
  split; [exact H1|]. split; [exact H2|].
  exact (proj2 (proj1 (skill_progression_chance (Sample.hero 1 5 [] active)
                         "swordsmanship" Sample.hero_skills
                         Sample.empty_world H1 H2))).
Defined.

Lemma damage_healing_clamp_and_status_witness :
  0 <= 7 /\
  0 <= current_hp (Sample.hero 1 5 [] active)
    <= maxHP_of (Sample.hero 1 5 [] active) /\
  current_hp (snd (applyDamage (Sample.hero 1 5 [] active) 7)) = 0 /\
  status (snd (applyDamage (Sample.hero 1 5 [] active) 7)) = Some knocked_out.
Proof.
  assert (H1 : 0 <= 7) by lia.
  assert (H2 : 0 <= current_hp (Sample.hero 1 5 [] active)
               <= maxHP_of (Sample.hero 1 5 [] active))
    by (vm_compute; split; discriminate).
  split; [exact H1|]. split; [exact H2|].
  destruct (damage_healing_clamp_and_status (Sample.hero 1 5 [] active) 7 H1 H2)
    as ((_ & Hd) & _ & Hko & _).
  split; [exact Hd|]. apply Hko; [exact Hd | reflexivity].
Defined.

Lemma resolveAttack_hit_and_clamp_witness :
  skills (Sample.hero 1 5 [] active) = Some Sample.hero_skills /\
  exists r,
    resolveAttack (Sample.hero 1 5 [] active) goblinEnemy "swordsmanship"
      no_modifiers no_modifiers Sample.empty_world
    = (Return (r, stats (Sample.hero 1 5 [] active), enemy_stats goblinEnemy),
       after_draws 2 Sample.empty_world) /\
    (0 <= current_hp goblinEnemy -> actualDamage r <= current_hp goblinEnemy).
Proof.
  assert (H1 : skills (Sample.hero 1 5 [] active) = Some Sample.hero_skills)
    by reflexivity.
  split; [exact H1|].
  destruct (resolveAttack_hit_and_clamp (Sample.hero 1 5 [] active) goblinEnemy
              "swordsmanship" no_modifiers no_modifiers Sample.hero_skills
              Sample.empty_world H1)
    as (r & Hr & _ & _ & _ & _ & _ & Hle & _).
  exists r. split; [exact Hr | exact Hle].
Defined.


End Combat.

(** ** Frames *)

Section Frames.
Context {X : Type} (f : World -> X).



Lemma leaves_get : leaves f get.
Proof. intros w. reflexivity. Qed.


Lemma leaves_try_catch {A} (m : M A) (h : string -> M A) :
  leaves f m -> (forall e, leaves f (h e)) -> leaves f (try_catch m h).
Proof.
  intros Hm Hh w. unfold try_catch.
  specialize (Hm w). destruct (m w) as [[a|e] w1]; simpl in *.
  - exact Hm.
  - rewrite Hh. exact Hm.
Qed.

Lemma leaves_attempt {A} (m : M A) :
  leaves f m -> leaves f (GameTick.attempt m).
Proof.
  intros Hm w. unfold GameTick.attempt.
  specialize (Hm w). destruct (m w) as [o w1]. exact Hm.
Qed.

Lemma leaves_modify (g : World -> World) :
  (forall w, f (g w) = f w) -> leaves f (modify g).
Proof. intros Hg w. apply Hg. Qed.

End Frames.

(** [Math.random] moves the cursor only. *)
Lemma leaves_Math_random {X} (f : World -> X) :
  (forall w n, f (after_draws n w) = f w) -> leaves f Math_random.
Proof. intros Hf w. rewrite Math_random_run. apply Hf. Qed.

(** ** Tables *)






(** ** The storage collaborator *)










Lemma outside_characters_update (characterId : Z)
    (updates : AirtableClient.CharacterUpdate) (w : World) :
  outside_characters (with_character_update characterId updates w)
    = outside_characters w.
Proof. reflexivity. Qed.

Lemma outside_characters_draws (w : World) (n : nat) :
  outside_characters (after_draws n w) = outside_characters w.
Proof. reflexivity. Qed.











(** ** Postconditions *)







Lemma stored_character_id (w : World) (characterId : Z) (record : Character) :
  stored_character w characterId = Some record ->
  character_id record = characterId.
Proof.
  unfold stored_character. intros H. apply find_some in H as [_ H].
  unfold AirtableClient.has_character_id in H.
  apply bool_decide_eq_true in H. exact H.
Qed.


(** ** The command loop *)

Lemma updateCommand_run (commandId : Z) (result : ActionResult) (w : World) :
  GameTick.updateCommand commandId result w
    = (Return true, with_command_result commandId result w).
Proof. reflexivity. Qed.

Lemma updateGameInstance_run (instanceId tick activity : Z) (w : World) :
  GameTick.updateGameInstance instanceId tick activity w
    = (Return true, with_tick instanceId tick activity w).
Proof. reflexivity. Qed.






(** ** The tick *)









(** ** What a tick leaves in place *)
















(** ** Command handlers *)



Lemma other_items_kept (items : list string) (item : string) :
  item ≠ "health_potion" ->
  (item ∈ filter (fun item => item ≠ "health_potion") items <-> item ∈ items).
Proof. intros Hne. rewrite list_elem_of_filter. tauto. Qed.






(** *** Attack *)








(** * Further properties *)

(** ** Dice and rolls *)

Section MoreCombat.
Import CombatSystem.


(** X2.  [calculateAttackRoll] returns a roll between 1 and 20; the
    entries of its breakdown add up to the total; the skill entry is the
    skill level, or -5 at level 0; [critical] marks a roll of 20 and
    [fumble] a roll of 1, never both. *)
Theorem attack_roll_breakdown (skillLevel : Z) (modifiers : Modifiers)
    (w : World) :
  exists r,
    calculateAttackRoll skillLevel modifiers w = (Return r, after_draws 1 w) /\
    1 <= roll r <= 20 /\
    total r = breakdown_base (breakdown r) + breakdown_skill (breakdown r)
              + breakdown_item (breakdown r) + breakdown_buffs (breakdown r)
              + breakdown_debuffs (breakdown r) /\
    breakdown_base (breakdown r) = roll r /\
    breakdown_skill (breakdown r)
      = (if decide (skillLevel = 0) then -5 else skillLevel) /\
    (critical r = true <-> roll r = 20) /\
    (fumble r = true <-> roll r = 1) /\
    critical r && fumble r = false.
Proof.
  eexists. split; [apply calculateAttackRoll_run|].
  pose proof (rollD20_range w) as Hd.
  unfold attack_roll_of. cbv zeta. simpl.
  split; [exact Hd|]. split; [lia|]. split; [reflexivity|].
  split; [destruct (decide (skillLevel = 0)); lia|].
  rewrite !bool_decide_eq_true. split; [reflexivity|]. split; [reflexivity|].
  destruct (decide (d20_of (next_draw w) = 20)) as [E|E].
  - rewrite (bool_decide_eq_false_2 (d20_of (next_draw w) = 1)) by lia.
    apply andb_false_r.
  - rewrite (bool_decide_eq_false_2 _ E). reflexivity.
Qed.

(** X3.  [calculateDamage] never returns less than 1; it does not
    decrease when the skill level or the weapon damage grows; and a
    critical hit deals between once and twice the plain damage, exactly
    twice as soon as the plain damage exceeds 1. *)
Theorem damage_floor_and_critical (skillLevel weaponDamage : Z)
    (modifiers : Modifiers) :
  let plain := calculateDamage skillLevel weaponDamage
                 (with_critical false modifiers) in
  let doubled := calculateDamage skillLevel weaponDamage
                   (with_critical true modifiers) in
  1 <= calculateDamage skillLevel weaponDamage modifiers /\
  (forall skillLevel' weaponDamage',
     skillLevel <= skillLevel' -> weaponDamage <= weaponDamage' ->
     calculateDamage skillLevel weaponDamage modifiers
       <= calculateDamage skillLevel' weaponDamage' modifiers) /\
  plain <= doubled <= 2 * plain /\
  (1 < plain -> doubled = 2 * plain).
Proof.
  cbv zeta. unfold calculateDamage, with_critical. simpl.
  split; [lia|]. split.
  - intros skillLevel' weaponDamage' HL Hw.
    assert (skillLevel / 5 <= skillLevel' / 5)
      by (apply Z.div_le_mono; lia).
    destruct (ability modifiers) as [a|]; [destruct (decide (a = 0))|];
      destruct (default false (critical_hit modifiers)); lia.
  - destruct (ability modifiers) as [a|]; [destruct (decide (a = 0))|]; lia.
Qed.

Lemma table_bounds (table : gmap string Z) (lo hi : Z) (key : string) :
  map_Forall (fun _ v => lo <= v <= hi) table -> lo <= 0 <= hi ->
  lo <= level_of table key <= hi.
Proof.
  intros Hall H0. unfold level_of.
  destruct (table !! key) as [v|] eqn:E; simpl; [|exact H0].
  apply (Hall _ _ E).
Qed.

Lemma weaponStats_bounds :
  map_Forall (fun (_ : string) v => 0 <= v <= 5) weaponStats.
Proof.
  unfold weaponStats.
  repeat (apply map_Forall_insert_2; [lia|]).
  apply map_Forall_empty.
Qed.

Lemma getWeaponDamage_bounds (weaponId : option string) :
  0 <= getWeaponDamage weaponId <= 5.
Proof.
  destruct weaponId as [w|]; simpl; [|lia].
  apply table_bounds; [apply weaponStats_bounds | lia].
Qed.

(** X4.  For an attacker whose skill level lies between 0 and 100 and
    who brings no ability bonus, a hit of [resolveAttack] deals between 1
    and 50 damage (at most 25 without a critical roll), whatever is
    equipped; [actualDamage] never exceeds [damage] and is at least 1
    against a defender with health left; a miss deals 0. *)
Theorem hit_damage_bounds (attacker defender : Combatant) (skillId : string)
    (am dm : Modifiers) (m : gmap string Z) (w : World) :
  skills attacker = Some m ->
  0 <= level_of m skillId <= 100 ->
  ability am = None ->
  exists r,
    resolveAttack attacker defender skillId am dm w
      = (Return (r, attacker, defender), after_draws 2 w) /\
    (hit r = true ->
       1 <= damage r <= 50 /\
       (attack_critical r = false -> damage r <= 25) /\
       actualDamage r <= damage r /\
       (1 <= current_hp defender -> 1 <= actualDamage r)) /\
    (hit r = false -> damage r = 0 /\ actualDamage r = 0).
Proof.
  intros Hs HL Ha.
  eexists. split; [apply (resolveAttack_run _ _ _ _ _ _ _ Hs)|].
  cbv zeta. simpl.
  pose proof (getWeaponDamage_bounds (equipment attacker ≫= main_hand)) as Hw.
  assert (Hdiv : 0 <= level_of m skillId / 5 <= 20).
  { split; [apply Z.div_pos; lia|].
    apply Z.div_le_upper_bound; lia. }
  unfold damage_modifiers, calculateDamage. rewrite Ha. simpl.
  destruct (bool_decide _); split; try discriminate; intros _.
  - destruct (bool_decide (d20_of (next_draw w) = 20)); simpl;
      repeat split; try discriminate; lia.
  - split; reflexivity.
Qed.

Lemma hit_damage_bounds_witness :
  skills (Sample.hero 1 5 [] active) = Some Sample.hero_skills /\
  0 <= level_of Sample.hero_skills "swordsmanship" <= 100 /\
  exists r,
    resolveAttack (Sample.hero 1 5 [] active) goblinEnemy "swordsmanship"
      no_modifiers no_modifiers Sample.empty_world
    = (Return (r, stats (Sample.hero 1 5 [] active), enemy_stats goblinEnemy),
       after_draws 2 Sample.empty_world) /\
    (hit r = true -> 1 <= damage r <= 50).
Proof.
  assert (H1 : skills (Sample.hero 1 5 [] active) = Some Sample.hero_skills)
    by reflexivity.
  assert (H2 : 0 <= level_of Sample.hero_skills "swordsmanship" <= 100)
    by (rewrite sample_level; lia).
  split; [exact H1|]. split; [exact H2|].
  destruct (hit_damage_bounds (Sample.hero 1 5 [] active) goblinEnemy
              "swordsmanship" no_modifiers no_modifiers Sample.hero_skills
              Sample.empty_world H1 H2 eq_refl)
    as (r & Hr & Hhit & _).
  exists r. split; [exact Hr|]. intros Hh. apply (Hhit Hh).
Defined.

End MoreCombat.

(** ** Initiative *)

Section Initiative.
Import CombatAbilities.

Lemma after_draws_S n w : after_draws n (after_draws 1 w) = after_draws (S n) w.
Proof. rewrite after_draws_add. f_equal. lia. Qed.

Lemma rank_run (p : Combatant) (w : World) :
  rank p w
    = (Return {| participant := p;
                 initiative :=
                   d20_of (next_draw w)
                   + level_of (default ∅ (skills p)) "perception" / 10;
                 initiativeRoll := d20_of (next_draw w) |},
       after_draws 1 w).
Proof. reflexivity. Qed.

Lemma rank_all_run (participants : list Combatant) :
  forall w,
  exists unsorted,
    rank_all participants w
      = (Return unsorted, after_draws (length participants) w) /\
    map participant unsorted = participants /\
    Forall (fun r =>
              1 <= initiativeRoll r <= 20 /\
              initiative r
                = initiativeRoll r
                  + level_of (default ∅ (skills (participant r))) "perception"
                    / 10) unsorted.
Proof.
  induction participants as [|p rest IH]; intros w.
  - exists []. rewrite after_draws_0. repeat split. constructor.
  - destruct (IH (after_draws 1 w)) as (unsorted & Hrun & Hmap & Hall).
    eexists (_ :: unsorted).
    simpl rank_all. rewrite run_bind, rank_run, run_bind, Hrun, run_ret.
    rewrite after_draws_S. split; [reflexivity|].
    split; [simpl; rewrite Hmap; reflexivity|].
    constructor; [|exact Hall]. simpl.
    split; [apply rollD20_range | reflexivity].
Qed.

Lemma insert_ranked_perm (x : Ranked) (l : list Ranked) :
  Permutation (insert_ranked x l) (x :: l).
Proof.
  induction l as [|y rest IH]; simpl; [reflexivity|].
  destruct (decide _); [|reflexivity].
  rewrite IH. apply perm_swap.
Qed.

Lemma sort_by_initiative_perm (l : list Ranked) :
  Permutation (sort_by_initiative l) l.
Proof.
  induction l as [|x rest IH]; simpl; [reflexivity|].
  rewrite insert_ranked_perm, IH. reflexivity.
Qed.

Lemma insert_ranked_sorted (x : Ranked) (l : list Ranked) :
  StronglySorted ranks_before l ->
  StronglySorted ranks_before (insert_ranked x l).
Proof.
  induction 1 as [|y rest Hsorted IH Hy]; simpl.
  - repeat constructor.
  - destruct (decide (initiative y > initiative x)) as [Hgt|Hle].
    + constructor; [exact IH|].
      eapply Permutation_Forall;
        [symmetry; apply insert_ranked_perm|].
      constructor; [unfold ranks_before; lia | exact Hy].
    + constructor; [constructor; assumption|].
      constructor; [unfold ranks_before; lia|].
      eapply Forall_impl; [exact Hy|].
      unfold ranks_before. intros z Hz. lia.
Qed.

Lemma sort_by_initiative_sorted (l : list Ranked) :
  StronglySorted ranks_before (sort_by_initiative l).
Proof.
  induction l as [|x rest IH]; simpl; [constructor|].
  apply insert_ranked_sorted, IH.
Qed.

Lemma insert_ranked_stable (v : Z) (x : Ranked) (l : list Ranked) :
  filter (fun r => initiative r = v) (insert_ranked x l)
    = filter (fun r => initiative r = v) (x :: l).
Proof.
  induction l as [|y rest IH]; simpl; [reflexivity|].
  destruct (decide (initiative y > initiative x)) as [Hgt|Hle];
    [|reflexivity].
  rewrite (filter_cons _ y), IH, !filter_cons.
  destruct (decide (initiative y = v)), (decide (initiative x = v));
    try reflexivity.
  lia.
Qed.

Lemma sort_by_initiative_stable (v : Z) (l : list Ranked) :
  filter (fun r => initiative r = v) (sort_by_initiative l)
    = filter (fun r => initiative r = v) l.
Proof.
  induction l as [|x rest IH]; simpl; [reflexivity|].
  rewrite insert_ranked_stable, !filter_cons, IH. reflexivity.
Qed.

(** X5.  [calculateInitiative] rolls once for each participant, from left
    to right, and gives each the initiative roll + floor(perception/10)
    with a roll between 1 and 20.  Its result is a rearrangement of the
    ranked participants, in descending order of initiative, in which the
    participants of equal initiative keep the order they came in. *)
Theorem initiative_is_a_stable_descending_order (participants : list Combatant)
    (w : World) :
  exists unsorted ranked,
    rank_all participants w
      = (Return unsorted, after_draws (length participants) w) /\
    calculateInitiative participants w
      = (Return ranked, after_draws (length participants) w) /\
    map participant unsorted = participants /\
    Permutation ranked unsorted /\
    length ranked = length participants /\
    StronglySorted ranks_before ranked /\
    (forall v, filter (fun r => initiative r = v) ranked
               = filter (fun r => initiative r = v) unsorted) /\
    Forall (fun r =>
              1 <= initiativeRoll r <= 20 /\
              initiative r
                = initiativeRoll r
                  + level_of (default ∅ (skills (participant r))) "perception"
                    / 10) ranked.
Proof.
  destruct (rank_all_run participants w) as (unsorted & Hrun & Hmap & Hall).
  exists unsorted, (sort_by_initiative unsorted).
  split; [exact Hrun|].
  split; [unfold calculateInitiative; rewrite run_bind, Hrun; reflexivity|].
  split; [exact Hmap|].
  split; [apply sort_by_initiative_perm|].
  split.
  { rewrite (Permutation_length (sort_by_initiative_perm unsorted)).
    rewrite <- Hmap, length_map. reflexivity. }
  split; [apply sort_by_initiative_sorted|].
  split; [intros v; apply sort_by_initiative_stable|].
  eapply Permutation_Forall; [symmetry; apply sort_by_initiative_perm|].
  exact Hall.
Qed.

End Initiative.

(** ** Abilities *)

Section Abilities.
Import CombatAbilities.

Lemma missing_among_spec (m : gmap string Z) (requirements : list (string * Z)) :
  map (fun ms => (missing_skill ms, missing_required ms))
      (missing_among m requirements)
    = filter (fun r => ¬ satisfied m r) requirements /\
  Forall (fun ms =>
            missing_current ms = level_of m (missing_skill ms) /\
            missing_current ms < missing_required ms)
         (missing_among m requirements) /\
  (length (missing_among m requirements) = 0%nat
     <-> Forall (satisfied m) requirements).
Proof.
  induction requirements as [|[skillId minLevel] rest (IH1 & IH2 & IH3)].
  - simpl. repeat split; constructor.
  - simpl. rewrite filter_cons. unfold satisfied at 1 3. simpl.
    destruct (decide (level_of m skillId < minLevel)) as [Hlt|Hge].
    + rewrite decide_True by lia. simpl. rewrite IH1.
      split; [reflexivity|]. split.
      * constructor; [simpl; split; [reflexivity | exact Hlt] | exact IH2].
      * split; [discriminate|]. intros H. inversion H as [|? ? Hs _].
        unfold satisfied in Hs. simpl in Hs. lia.
    + rewrite decide_False by lia. split; [exact IH1|]. split; [exact IH2|].
      rewrite IH3. split.
      * intros H. constructor; [unfold satisfied; simpl; lia | exact H].
      * intros H. inversion H. assumption.
Qed.

(** X6.  [checkAbilityRequirements] reports that the requirements are
    met exactly when the skill map reaches every required level, a skill
    absent from the map counting as level 0; the missing skills are the
    unmet requirements, in the order of the requirements, each with the
    current level.  Without a skill map it still answers "met" for an
    empty set of requirements and raises for any other. *)
Theorem ability_requirements_check (character : Combatant)
    (requirements : list (string * Z)) :
  match skills character with
  | Some m =>
    exists check,
      checkAbilityRequirements character requirements = Return check /\
      (meetsRequirements check = true <-> Forall (satisfied m) requirements) /\
      map (fun ms => (missing_skill ms, missing_required ms))
          (missingSkills check)
        = filter (fun r => ¬ satisfied m r) requirements /\
      Forall (fun ms =>
                missing_current ms = level_of m (missing_skill ms) /\
                missing_current ms < missing_required ms)
             (missingSkills check)
  | None =>
    match requirements with
    | [] => checkAbilityRequirements character requirements
              = Return {| meetsRequirements := true; missingSkills := [] |}
    | _ :: _ => checkAbilityRequirements character requirements
                  = Throw "Cannot read properties of undefined"
    end
  end.
Proof.
  unfold checkAbilityRequirements.
  destruct (skills character) as [m|]; [|destruct requirements; reflexivity].
  destruct (missing_among_spec m requirements) as (H1 & H2 & H3).
  destruct requirements as [|r rest].
  - eexists. split; [reflexivity|]. simpl. repeat split; constructor.
  - eexists. split; [reflexivity|]. cbv zeta. simpl meetsRequirements.
    simpl missingSkills. rewrite bool_decide_eq_true.
    split; [exact H3|]. split; [exact H1 | exact H2].
Qed.

Lemma bonus_among_sum (m : gmap string Z) (requirements : list (string * Z))
    (bonusPerRequirement : Z) :
  forall totalBonus,
  bonus_among m requirements bonusPerRequirement totalBonus
    = totalBonus + bonusPerRequirement * sum_list (map (excess m) requirements).
Proof.
  induction requirements as [|[skillId minLevel] rest IH]; intros totalBonus;
    simpl.
  - lia.
  - rewrite IH. unfold excess at 2. simpl. lia.
Qed.

Lemma sum_excess_nonneg (m : gmap string Z) (requirements : list (string * Z)) :
  0 <= sum_list (map (excess m) requirements).
Proof.
  induction requirements as [|r rest IH]; simpl; [lia|].
  unfold excess at 1. lia.
Qed.

(** X7.  With a skill map, [calculateAbilityBonus] returns the bonus per
    level times the sum, over the requirements, of the levels by which
    the character exceeds them; a requirement that is not exceeded adds
    nothing, so the bonus is 0 when none is, and never negative for a
    non-negative bonus per level.  Without a skill map it returns 0 for
    an empty set of requirements and raises for any other. *)
Theorem ability_bonus_counts_excess (character : Combatant)
    (requirements : list (string * Z)) (bonusPerRequirement : Z) :
  match skills character with
  | Some m =>
    exists bonus,
      calculateAbilityBonus character requirements bonusPerRequirement
        = Return bonus /\
      bonus = bonusPerRequirement * sum_list (map (excess m) requirements) /\
      (0 <= bonusPerRequirement -> 0 <= bonus) /\
      (Forall (fun r => level_of m (fst r) <= snd r) requirements -> bonus = 0)
  | None =>
    match requirements with
    | [] => calculateAbilityBonus character requirements bonusPerRequirement
              = Return 0
    | _ :: _ => calculateAbilityBonus character requirements bonusPerRequirement
                  = Throw "Cannot read properties of undefined"
    end
  end.
Proof.
  unfold calculateAbilityBonus.
  destruct (skills character) as [m|]; [|destruct requirements; reflexivity].
  exists (bonusPerRequirement * sum_list (map (excess m) requirements)).
  split.
  { destruct requirements as [|r rest]; [simpl; f_equal; lia|].
    rewrite bonus_among_sum. f_equal; lia. }
  split; [reflexivity|]. split.
  - intros Hb. pose proof (sum_excess_nonneg m requirements). nia.
  - intros Hall.
    assert (Hz : sum_list (map (excess m) requirements) = 0).
    { induction Hall as [|r rest Hr _ IH]; simpl; [reflexivity|].
      rewrite IH. unfold excess. lia. }
    rewrite Hz. lia.
Qed.

(** ** Energy *)

(** X8.  [consumeEnergy] succeeds exactly when the character has at
    least the cost; it then takes exactly the cost, and otherwise leaves
    the character as it is.  The combat fields are never touched, and a
    non-negative cost never leaves a character that had energy with less
    than none. *)
Theorem consume_energy_all_or_nothing (character : EnergyUser) (energyCost : Z) :
  let ok := fst (consumeEnergy character energyCost) in
  let after := snd (consumeEnergy character energyCost) in
  (ok = true <-> energyCost <= current_energy character) /\
  current_energy after
    = (if ok then current_energy character - energyCost
       else current_energy character) /\
  (ok = false -> after = character) /\
  user_stats after = user_stats character /\
  (0 <= energyCost -> 0 <= current_energy character ->
     0 <= current_energy after <= current_energy character).
Proof.
  cbv zeta. unfold consumeEnergy.
  destruct (decide (current_energy character >= energyCost)) as [H|H]; simpl.
  - repeat split; try lia; try discriminate.
  - repeat split; try lia; try discriminate.
Qed.

(** X9.  For a character whose energy lies between 0 and its maximum and
    a non-negative amount, [restoreEnergy] raises the energy to
    min(max, energy + amount) and returns the part of the amount that
    was restored; restoring what [consumeEnergy] has just taken gives the
    character back as it was. *)
Theorem restore_energy_clamps_and_undoes_consume (character : EnergyUser)
    (amount : Z) :
  0 <= amount ->
  0 <= current_energy character <= maxEnergy_of character ->
  let restored := fst (restoreEnergy character amount) in
  let after := snd (restoreEnergy character amount) in
  current_energy after
    = Z.min (maxEnergy_of character) (current_energy character + amount) /\
  restored = current_energy after - current_energy character /\
  0 <= restored <= amount /\
  current_energy character <= current_energy after <= maxEnergy_of character /\
  user_stats after = user_stats character /\
  (amount <= current_energy character ->
     fst (consumeEnergy character amount) = true /\
     restoreEnergy (snd (consumeEnergy character amount)) amount
       = (amount, character)).
Proof.
  intros Ha He. cbv zeta. unfold restoreEnergy. fold (maxEnergy_of character).
  simpl. repeat split; try lia.
  - unfold consumeEnergy. rewrite decide_True by lia. reflexivity.
  - unfold consumeEnergy. rewrite decide_True by lia. simpl.
    unfold set_current_energy. simpl. fold (maxEnergy_of character).
    destruct character as [st e]. simpl in *. f_equal; [lia|].
    f_equal. lia.
Qed.

Lemma restore_energy_clamps_and_undoes_consume_witness :
  0 <= 4 /\
  0 <= current_energy (mkEnergyUser (Sample.hero 1 5 [] active) 6)
    <= maxEnergy_of (mkEnergyUser (Sample.hero 1 5 [] active) 6) /\
  restoreEnergy
    (snd (consumeEnergy (mkEnergyUser (Sample.hero 1 5 [] active) 6) 4)) 4
  = (4, mkEnergyUser (Sample.hero 1 5 [] active) 6).
Proof.
  assert (H1 : 0 <= 4) by lia.
  assert (H2 : 0 <= current_energy (mkEnergyUser (Sample.hero 1 5 [] active) 6)
               <= maxEnergy_of (mkEnergyUser (Sample.hero 1 5 [] active) 6))
    by (vm_compute; split; discriminate).
  split; [exact H1|]. split; [exact H2|].
  destruct (restore_energy_clamps_and_undoes_consume
              (mkEnergyUser (Sample.hero 1 5 [] active) 6) 4 H1 H2)
    as (_ & _ & _ & _ & _ & Hround).
  apply Hround. simpl. lia.
Defined.

End Abilities.

(** ** Health, levels and derived maxima *)

Section Health.
Import CombatSystem.

(** X10.  [applyDamage] reports [died] exactly when the health is 0
    after the call, also when it was 0 before, and [wasKnockedOut]
    exactly when positive health was brought to 0.  [died] is therefore
    reported for an active target that is only knocked out; while
    [died] is not reported the status is left alone and health remains. *)
Theorem damage_report_flags (target : Combatant) (damage : Z) :
  let r := fst (applyDamage target damage) in
  let after := snd (applyDamage target damage) in
  damage_newHP r = current_hp after /\
  (died r = true <-> current_hp after = 0) /\
  (wasKnockedOut r = true <-> 0 < current_hp target /\ current_hp after = 0) /\
  (wasKnockedOut r = true -> died r = true) /\
  (died r = true -> status target = Some active ->
     status after = Some knocked_out) /\
  (died r = false -> status after = status target /\ 0 < current_hp after).
Proof.
  cbv zeta.
  destruct (applyDamage_result target damage) as (Hhp & Hdied & Hko).
  pose proof (applyDamage_hp target damage) as Hafter.
  pose proof (applyDamage_status target damage) as Hstatus.
  rewrite <- Hafter in Hstatus.
  split; [exact Hhp|]. rewrite Hhp in Hdied, Hko.
  split; [exact Hdied|].
  split; [rewrite Hko; split; intros [? ?]; split; lia|].
  split; [intros H; apply Hdied, Hko, H|].
  split.
  - intros H Hs. apply Hdied in H. rewrite Hstatus, decide_True by exact H.
    rewrite Hs, decide_True by reflexivity. reflexivity.
  - intros H.
    assert (Hn : current_hp (snd (applyDamage target damage)) <> 0).
    { intros H0. apply Hdied in H0. congruence. }
    rewrite Hstatus, decide_False by exact Hn.
    split; [reflexivity|]. lia.
Qed.

(** X11.  For a target whose health lies between 0 and its maximum,
    healing by the amount of a damage that did not exceed the health
    brings the health back to what it was; the status does not come
    back: a target that the damage knocked out stays knocked out. *)
Theorem healing_undoes_damage_but_not_status (target : Combatant) (amount : Z) :
  0 <= amount <= current_hp target ->
  current_hp target <= maxHP_of target ->
  let damaged := snd (applyDamage target amount) in
  let healed := snd (applyHealing damaged amount) in
  current_hp healed = current_hp target /\
  actualHealing (fst (applyHealing damaged amount)) = amount /\
  status healed = status damaged /\
  (amount = current_hp target -> status target = Some active ->
     status healed = Some knocked_out).
Proof.
  intros Ha Hmax damaged healed.
  assert (Hd : current_hp damaged = current_hp target - amount).
  { unfold damaged. rewrite applyDamage_hp. lia. }
  assert (Hm : maxHP_of damaged = maxHP_of target).
  { unfold maxHP_of, damaged. rewrite applyDamage_skills. reflexivity. }
  assert (Hh : current_hp healed
               = Z.min (maxHP_of damaged) (current_hp damaged + amount))
    by reflexivity.
  assert (Hs : status healed = status damaged) by reflexivity.
  split; [lia|]. split.
  { unfold applyHealing. simpl. fold (maxHP_of damaged). lia. }
  split; [exact Hs|].
  intros Hall Hactive. rewrite Hs. unfold damaged.
  rewrite applyDamage_status, decide_True by lia.
  rewrite Hactive, decide_True by reflexivity. reflexivity.
Qed.

Lemma healing_undoes_damage_but_not_status_witness :
  0 <= 5 <= current_hp (Sample.hero 1 5 [] active) /\
  current_hp (Sample.hero 1 5 [] active)
    <= maxHP_of (Sample.hero 1 5 [] active) /\
  current_hp (snd (applyHealing
                     (snd (applyDamage (Sample.hero 1 5 [] active) 5)) 5)) = 5 /\
  status (snd (applyHealing
                 (snd (applyDamage (Sample.hero 1 5 [] active) 5)) 5))
    = Some knocked_out.
Proof.
  assert (H1 : 0 <= 5 <= current_hp (Sample.hero 1 5 [] active))
    by (simpl; lia).
  assert (H2 : current_hp (Sample.hero 1 5 [] active)
               <= maxHP_of (Sample.hero 1 5 [] active))
    by (vm_compute; discriminate).
  split; [exact H1|]. split; [exact H2|].
  destruct (healing_undoes_damage_but_not_status
              (Sample.hero 1 5 [] active) 5 H1 H2) as (Hhp & _ & _ & Hko).
  split; [exact Hhp|]. apply Hko; reflexivity.
Defined.

Lemma total_level_insert (m : gmap string Z) (key : string) (v : Z) :
  calculateTotalLevel (Some (<[key := v]> m))
    = calculateTotalLevel (Some m) - level_of m key + v.
Proof.
  unfold calculateTotalLevel, level_of. simpl.
  assert (Hcomm : forall z1 z2 y : Z, y + z2 + z1 = y + z1 + z2)
    by (intros; lia).
  destruct (m !! key) as [old|] eqn:E; simpl.
  - rewrite <- (insert_delete_eq m).
    rewrite map_fold_insert_L;
      [|intros; apply Hcomm | apply lookup_delete_eq].
    rewrite (map_fold_delete_L _ _ key old m);
      [|intros; apply Hcomm | exact E].
    lia.
  - rewrite map_fold_insert_L; [|intros; apply Hcomm | exact E]. lia.
Qed.

(** X12.  When [processSkillProgression] runs on a skill whose level lies
    between 0 and 100, the total level of the character grows by the
    difference between the new and the old level, which is 0 or 1; so
    the maximal health and the maximal energy derived from the skills
    never go down and go up by at most 1. *)
Theorem progression_raises_derived_maxima (character : Combatant)
    (skillId : string) (m : gmap string Z) (w : World) :
  skills character = Some m ->
  0 <= level_of m skillId <= 100 ->
  exists r character',
    processSkillProgression character skillId w
      = (Return (r, character'), after_draws 1 w) /\
    0 <= progress_newLevel r - progress_oldLevel r <= 1 /\
    calculateTotalLevel (skills character')
      = calculateTotalLevel (skills character)
        + (progress_newLevel r - progress_oldLevel r) /\
    maxHP_of character <= maxHP_of character' <= maxHP_of character + 1 /\
    maxEnergy_of character <= maxEnergy_of character'
      <= maxEnergy_of character + 1.
Proof.
  intros Hs HL.
  rewrite (processSkillProgression_run _ _ _ _ Hs). cbv zeta.
  destruct (below_chance _ _).
  - eexists _, _. split; [reflexivity|]. simpl.
    assert (Ht : calculateTotalLevel
                   (Some (<[skillId := Z.min (level_of m skillId + 1) 100]> m))
                 = calculateTotalLevel (skills character)
                   + (Z.min (level_of m skillId + 1) 100 - level_of m skillId)).
    { rewrite total_level_insert, Hs. lia. }
    split; [lia|]. split; [exact Ht|].
    unfold maxHP_of, maxEnergy_of, calculateMaxHP, calculateMaxEnergy.
    simpl skills. rewrite Ht.
    generalize (calculateTotalLevel (skills character)) as t. intros t.
    assert (Hd : Z.min (level_of m skillId + 1) 100 - level_of m skillId = 0
                 \/ Z.min (level_of m skillId + 1) 100 - level_of m skillId = 1)
      by lia.
    destruct Hd as [-> | ->].
    + rewrite Z.add_0_r. lia.
    + Z.div_mod_to_equations. lia.
  - eexists _, _. split; [reflexivity|]. simpl.
    split; [lia|]. split; [lia|]. lia.
Qed.

Lemma progression_raises_derived_maxima_witness :
  skills (Sample.hero 1 5 [] active) = Some Sample.hero_skills /\
  0 <= level_of Sample.hero_skills "swordsmanship" <= 100 /\
  exists r character',
    processSkillProgression (Sample.hero 1 5 [] active) "swordsmanship"
      Sample.empty_world
    = (Return (r, character'), after_draws 1 Sample.empty_world) /\
    maxHP_of (Sample.hero 1 5 [] active) <= maxHP_of character'.
Proof.
  assert (H1 : skills (Sample.hero 1 5 [] active) = Some Sample.hero_skills)
    by reflexivity.
  assert (H2 : 0 <= level_of Sample.hero_skills "swordsmanship" <= 100)
    by (rewrite sample_level; lia).
  split; [exact H1|]. split; [exact H2|].
  destruct (progression_raises_derived_maxima (Sample.hero 1 5 [] active)
              "swordsmanship" Sample.hero_skills Sample.empty_world H1 H2)
    as (r & character' & Hrun & _ & _ & Hhp & _).
  exists r, character'. split; [exact Hrun | apply Hhp].
Defined.

End Health.

(** ** The fallback parsers *)

Section Parsers.

Lemma lower_char_whitespace (c : ascii) :
  JSString.is_whitespace c = true ->
  JSString.lower_char c = c.
Proof.
  unfold JSString.is_whitespace, JSString.lower_char.
  generalize (nat_of_ascii c) as n. intros n H.
  destruct ((65 <=? n)%nat && (n <=? 90)%nat) eqn:E; [|reflexivity].
  apply andb_true_iff in E as [E1 E2].
  apply Nat.leb_le in E1. apply Nat.leb_le in E2.
  apply orb_true_iff in H as [H|H].
  - apply andb_true_iff in H as [_ H]. apply Nat.leb_le in H. lia.
  - apply Nat.eqb_eq in H. lia.
Qed.

Lemma toLowerCase_whitespace (s : string) :
  all_whitespace s = true -> JSString.toLowerCase s = s.
Proof.
  induction s as [|c rest IH]; simpl; [reflexivity|].
  intros H. apply andb_true_iff in H as [Hc Hrest].
  rewrite (lower_char_whitespace c Hc), (IH Hrest). reflexivity.
Qed.

Lemma trimStart_whitespace (s : string) :
  all_whitespace s = true -> JSString.trimStart s = EmptyString.
Proof.
  induction s as [|c rest IH]; simpl; [reflexivity|].
  intros H. apply andb_true_iff in H as [Hc Hrest].
  rewrite Hc. apply IH, Hrest.
Qed.

Lemma trim_whitespace (s : string) :
  all_whitespace s = true ->
  JSString.trim (JSString.toLowerCase s) = EmptyString.
Proof.
  intros H. unfold JSString.trim.
  rewrite (toLowerCase_whitespace s H), (trimStart_whitespace s H).
  reflexivity.
Qed.

(** X13.  The fallback parser of the tick function answers with one of
    the intents attack, move, use_skill, use_item and unknown, never with
    interact; an input made of white space only (the empty one included)
    is unknown to it and to the fallback parser of the engine alike. *)
Theorem tick_parser_intents (input : string) :
  intent (GameTick.parseCommandFallback input)
    ∈ ["attack"; "move"; "use_skill"; "use_item"; "unknown"] /\
  intent (GameTick.parseCommandFallback input) ≠ "interact" /\
  (all_whitespace input = true ->
     intent (GameTick.parseCommandFallback input) = "unknown" /\
     forall availableSkills currentEnemies,
       intent (LLMIntegration.fallbackParser input availableSkills currentEnemies)
         = "unknown").
Proof.
  split; [|split].
  - unfold GameTick.parseCommandFallback. cbv zeta.
    repeat match goal with
           | |- context [if ?b then _ else _] => destruct b
           end; simpl; set_solver.
  - unfold GameTick.parseCommandFallback. cbv zeta.
    repeat match goal with
           | |- context [if ?b then _ else _] => destruct b
           end; simpl; discriminate.
  - intros H.
    unfold GameTick.parseCommandFallback, LLMIntegration.fallbackParser.
    cbv zeta. rewrite (trim_whitespace input H).
    split; [reflexivity|]. intros; reflexivity.
Qed.

Lemma tick_parser_intents_witness :
  all_whitespace "  " = true /\
  intent (GameTick.parseCommandFallback "  ") = "unknown".
Proof.
  assert (H : all_whitespace "  " = true) by reflexivity.
  split; [exact H|].
  apply (proj2 (proj2 (tick_parser_intents "  ")) H).
Defined.

(** X14.  The two fallback parsers agree: whenever the parser of the tick
    function recognises an intent, the parser of the engine returns the
    same intent; where the former says unknown, the latter says
    use_skill, interact or unknown.  For an attack the engine's parser
    suggests one of four weapon skills, for a defence both suggest
    shield_use. *)
Theorem fallback_parsers_agree (input : string) (availableSkills : list string)
    (currentEnemies : list Enemy) :
  let fromTick := GameTick.parseCommandFallback input in
  let fromEngine :=
    LLMIntegration.fallbackParser input availableSkills currentEnemies in
  match decide (intent fromTick = "unknown") with
  | left _ => intent fromEngine ∈ ["use_skill"; "interact"; "unknown"]
  | right _ =>
    intent fromEngine = intent fromTick /\
    match decide (intent fromTick = "attack") with
    | left _ =>
      skill_suggested fromEngine
        ∈ [Some "swordsmanship"; Some "archery"; Some "axe_fighting";
           Some "unarmed_combat"]
    | right _ => skill_suggested fromEngine = skill_suggested fromTick
    end
  end.
Proof.
  cbv zeta.
  unfold GameTick.parseCommandFallback, LLMIntegration.fallbackParser.
  cbv zeta.
  generalize (JSString.split_whitespace
                (JSString.trim (JSString.toLowerCase input))) as words.
  intros words.
  destruct (JSString.some_included words
              ["attack"; "hit"; "strike"; "fight"; "kill"]).
  { simpl. split; [reflexivity|].
    repeat match goal with
           | |- context [if ?b then _ else _] => destruct b
           end; set_solver. }
  destruct (JSString.some_included words ["move"; "go"; "walk"; "run"; "step"]).
  { simpl. split; reflexivity. }
  destruct (JSString.some_included words
              ["defend"; "block"; "guard"; "shield"; "protect"]).
  { simpl. split; reflexivity. }
  destruct (JSString.some_included words ["use"; "drink"; "consume"; "apply"]).
  { simpl. split; reflexivity. }
  simpl.
  repeat match goal with
         | |- context [if ?b then _ else _] => destruct b
         end; simpl; set_solver.
Qed.




End Parsers.

(** ** Moves and skill checks *)








(** ** Dispatch of one command *)

Section Dispatch.




End Dispatch.

(** ** Outcomes of a tick *)

Section TickOutcomes.




End TickOutcomes.

(** ** What a tick leaves alone *)

Section Bystanders.

Variable other : Z.









End Bystanders.




(** ** The HTTP endpoint *)

Section Endpoint.

Import TickEndpoint.


End Endpoint.

(** ** Skill names *)

Section SkillNames.

Import JSString.

Lemma append_empty (s : string) : (s +:+ EmptyString)%string = s.
Proof.
  induction s as [|c s IH]; [reflexivity|].
  change (String c (s +:+ EmptyString) = String c s). f_equal. exact IH.
Qed.

Lemma append_associative (a b c : string) :
  ((a +:+ b) +:+ c)%string = (a +:+ (b +:+ c))%string.
Proof.
  induction a as [|x a IH]; [reflexivity|].
  change (String x ((a +:+ b) +:+ c) = String x (a +:+ (b +:+ c))).
  f_equal. exact IH.
Qed.

Lemma rev_app_append (s : string) :
  forall acc, String.rev_app s acc = (String.rev_app s EmptyString +:+ acc)%string.
Proof.
  induction s as [|c s IH]; intros acc; [reflexivity|].
  change (String.rev_app s (String c acc)
          = (String.rev_app s (String c EmptyString) +:+ acc)%string).
  rewrite (IH (String c acc)), (IH (String c EmptyString)), append_associative.
  reflexivity.
Qed.

Lemma rev_cons (c : ascii) (cur : string) :
  String.rev (String c cur) = (String.rev cur +:+ String c EmptyString)%string.
Proof. unfold String.rev. apply (rev_app_append cur (String c EmptyString)). Qed.

Lemma split_char_go_cons (sep : ascii) (s : string) :
  forall cur, exists first rest, split_char_go sep cur s = first :: rest.
Proof.
  induction s as [|c s IH]; intros cur; simpl.
  - eexists _, _. reflexivity.
  - destruct (decide (c = sep)); [eexists _, _; reflexivity | apply IH].
Qed.

Lemma join_cons (sep x : string) (l : list string) :
  l <> [] -> join sep (x :: l) = (x +:+ sep +:+ join sep l)%string.
Proof. destruct l; [contradiction | reflexivity]. Qed.

Lemma format_go (s : string) :
  forall cur,
  join " " (capitalize <$> split_char_go "_"%char cur s) =
  match String.rev cur with
  | EmptyString => title_case true s
  | String c rest => String (upper_char c) (rest +:+ title_case false s)
  end.
Proof.
  induction s as [|c s IH]; intros cur.
  - simpl. destruct (String.rev cur) as [|c0 rest]; [reflexivity|].
    simpl. rewrite append_empty. reflexivity.
  - simpl split_char_go. simpl title_case.
    destruct (decide (c = "_"%char)) as [->|Hne].
    + destruct (split_char_go_cons "_"%char s EmptyString)
        as (first & others & Hsplit).
      rewrite fmap_cons, join_cons
        by (rewrite Hsplit; discriminate).
      rewrite (IH EmptyString).
      change (String.rev EmptyString) with EmptyString. cbv iota.
      destruct (String.rev cur) as [|c0 rest]; reflexivity.
    + rewrite (IH (String c cur)).
      rewrite rev_cons.
      destruct (String.rev cur) as [|c0 rest]; [reflexivity|].
      change (String (upper_char c0)
                ((rest +:+ String c EmptyString) +:+ title_case false s)
              = String (upper_char c0) (rest +:+ String c (title_case false s))).
      rewrite append_associative. reflexivity.
Qed.

Lemma upper_char_keeps_off_underscore (c : ascii) :
  c <> "_"%char -> upper_char c <> "_"%char.
Proof.
  destruct c as [[] [] [] [] [] [] [] []]; vm_compute; congruence.
Qed.

Lemma upper_char_idem (c : ascii) : upper_char (upper_char c) = upper_char c.
Proof. destruct c as [[] [] [] [] [] [] [] []]; reflexivity. Qed.

Lemma title_case_length (s : string) :
  forall start, String.length (title_case start s) = String.length s.
Proof.
  induction s as [|c s IH]; intros start; simpl; [reflexivity|].
  destruct (decide _); simpl; rewrite IH; reflexivity.
Qed.

Lemma title_case_no_underscore (s : string) :
  forall start, occurs "_"%char (title_case start s) = false.
Proof.
  induction s as [|c s IH]; intros start; simpl; [reflexivity|].
  destruct (decide (c = "_"%char)) as [->|Hne]; simpl.
  - rewrite IH. reflexivity.
  - rewrite IH, orb_false_r. apply bool_decide_eq_false.
    destruct start; [apply upper_char_keeps_off_underscore|]; exact Hne.
Qed.

Lemma title_case_without_underscore (s : string) :
  occurs "_"%char s = false ->
  title_case false s = s /\ title_case true s = capitalize s.
Proof.
  induction s as [|c s IH]; simpl; [split; reflexivity|].
  intros H. apply orb_false_iff in H as [Hc Hs].
  apply bool_decide_eq_false in Hc. destruct (IH Hs) as [IHf _].
  destruct (decide (c = "_"%char)); [contradiction|].
  rewrite IHf. split; reflexivity.
Qed.

Lemma capitalize_title_case (s : string) :
  capitalize (title_case true s) = title_case true s.
Proof.
  destruct s as [|c s]; simpl; [reflexivity|].
  destruct (decide _); simpl; [reflexivity|].
  rewrite upper_char_idem. reflexivity.
Qed.

(** X23.  [formatSkillName] reads an identifier of ASCII characters one by one:
    every underscore becomes a space, and the character at the start and
    after each underscore is put in upper case, also when two
    underscores follow each other or the identifier ends with one.  The
    name has as many characters as the identifier and no underscore, and
    formatting a name again gives the same name. *)
Theorem formatSkillName_title_case (skillId : string) :
  GameTick.formatSkillName skillId = title_case true skillId /\
  String.length (GameTick.formatSkillName skillId) = String.length skillId /\
  occurs "_"%char (GameTick.formatSkillName skillId) = false /\
  GameTick.formatSkillName (GameTick.formatSkillName skillId)
    = GameTick.formatSkillName skillId.
Proof.
  assert (Hformat : forall s, GameTick.formatSkillName s = title_case true s).
  { intros s. unfold GameTick.formatSkillName, split_char.
    rewrite (format_go s EmptyString). reflexivity. }
  rewrite !Hformat.
  split; [reflexivity|]. split; [apply title_case_length|].
  split; [apply title_case_no_underscore|].
  destruct (title_case_without_underscore (title_case true skillId)
              (title_case_no_underscore skillId true)) as [_ ->].
  apply capitalize_title_case.
Qed.

End SkillNames.

(** ** The engine: abilities, rooms and enemies *)

Section EngineMore.

Import CombatAbilities EngineAbilities.

Lemma engine_check_run (abilities : list Ability) (character : EnergyUser)
    (m : gmap string Z) (abilityId : string) :
  skills character = Some m ->
  EngineAbilities.checkAbilityRequirements (Some abilities) character abilityId
    = Return (bool_decide (bearer_usable abilities character abilityId)).
Proof.
  intros Hs. unfold EngineAbilities.checkAbilityRequirements.
  change (Some abilities ≫= find (has_ability_id abilityId))
    with (find (has_ability_id abilityId) abilities).
  destruct (find _ _) as [ability|] eqn:Hfind.
  2: { rewrite bool_decide_eq_false_2; [reflexivity|].
       unfold bearer_usable. rewrite Hfind. intros []. }
  assert (Hb : bearer_usable abilities character abilityId
               <-> Forall (satisfied m) (requirements ability) /\
                   energy_cost ability <= current_energy character).
  { unfold bearer_usable. rewrite Hfind. unfold usable. rewrite Hs.
    reflexivity. }
  rewrite (bool_decide_ext _ _ Hb). clear Hb.
  destruct (missing_among_spec m (requirements ability)) as (_ & _ & H3).
  unfold CombatAbilities.checkAbilityRequirements. rewrite Hs.
  destruct (requirements ability) as [|r rest] eqn:Hr.
  - cbn [meetsRequirements]. rewrite bool_decide_and. f_equal.
    rewrite (bool_decide_eq_true_2 (Forall (satisfied m) [])) by constructor.
    rewrite ?andb_true_l. apply bool_decide_ext. lia.
  - cbv zeta. cbn [meetsRequirements]. rewrite bool_decide_and.
    f_equal. f_equal; apply bool_decide_ext; [exact H3 | lia].
Qed.

Lemma filter_available_run (abilities : list Ability) (character : EnergyUser)
    (m : gmap string Z) (candidates : list Ability) :
  skills character = Some m ->
  filter_available (Some abilities) character candidates
    = Return (filter (first_bearer_usable abilities character) candidates).
Proof.
  intros Hs. induction candidates as [|ability rest IH]; [reflexivity|].
  simpl. rewrite (engine_check_run _ _ _ _ Hs), IH, filter_cons.
  fold (first_bearer_usable abilities character ability).
  destruct (decide (first_bearer_usable abilities character ability)) as [H|H].
  - rewrite bool_decide_eq_true_2 by exact H. reflexivity.
  - rewrite bool_decide_eq_false_2 by exact H. reflexivity.
Qed.

Lemma find_first_bearer (abilities : list Ability) (ability : Ability) :
  NoDup (map ability_id abilities) ->
  ability ∈ abilities ->
  find (has_ability_id (ability_id ability)) abilities = Some ability.
Proof.
  induction abilities as [|first rest IH]; intros Hnodup Hin.
  - apply elem_of_nil in Hin. contradiction.
  - simpl in Hnodup. apply NoDup_cons in Hnodup as [Hfresh Hrest].
    simpl. unfold has_ability_id at 1.
    apply elem_of_cons in Hin as [-> | Hin].
    + rewrite bool_decide_eq_true_2 by reflexivity. reflexivity.
    + rewrite bool_decide_eq_false_2; [apply IH; assumption|].
      intros Heq. apply Hfresh. rewrite Heq.
      apply list_elem_of_fmap. exists ability. split; [reflexivity | exact Hin].
Qed.

Lemma filter_agree {A} (P Q : A -> Prop) `{!forall x, Decision (P x)}
    `{!forall x, Decision (Q x)} (l : list A) :
  (forall x, x ∈ l -> (P x <-> Q x)) -> filter P l = filter Q l.
Proof.
  induction l as [|x l IH]; intros Hall; [reflexivity|].
  rewrite !filter_cons.
  assert (Hx : P x <-> Q x) by (apply Hall; left).
  assert (Hl : filter P l = filter Q l).
  { apply IH. intros y Hy. apply Hall. right. exact Hy. }
  destruct (decide (P x)), (decide (Q x)); try tauto; rewrite Hl; reflexivity.
Qed.

(** X24.  For a character with a skill map [getAvailableAbilities]
    never raises; it lists, in the order of the loaded abilities, those
    whose identifier leads [checkAbilityRequirements] to a usable
    ability, which is the first ability with that identifier.  When the
    identifiers are unique these are exactly the abilities that the
    character can use: every required level is reached and the energy
    cost is covered, so that [consumeEnergy] succeeds for each listed
    ability.  Before the abilities are loaded the list is empty. *)
Theorem available_abilities_are_usable (abilities : list Ability)
    (character : EnergyUser) (m : gmap string Z) :
  skills character = Some m ->
  getAvailableAbilities None character = Return [] /\
  getAvailableAbilities (Some abilities) character
    = Return (filter (first_bearer_usable abilities character) abilities) /\
  (NoDup (map ability_id abilities) ->
   filter (first_bearer_usable abilities character) abilities
     = filter (usable character) abilities /\
   forall ability,
     ability ∈ filter (first_bearer_usable abilities character) abilities ->
     EngineAbilities.checkAbilityRequirements (Some abilities) character
       (ability_id ability) = Return true /\
     Forall (satisfied m) (requirements ability) /\
     fst (consumeEnergy character (energy_cost ability)) = true /\
     current_energy (snd (consumeEnergy character (energy_cost ability)))
       = current_energy character - energy_cost ability /\
     0 <= current_energy (snd (consumeEnergy character (energy_cost ability)))).
Proof.
  intros Hs. split; [reflexivity|]. split.
  { apply (filter_available_run _ _ _ _ Hs). }
  intros Hnodup.
  assert (Hagree : forall ability, ability ∈ abilities ->
            (first_bearer_usable abilities character ability
             <-> usable character ability)).
  { intros ability Hin. unfold first_bearer_usable, bearer_usable.
    rewrite (find_first_bearer _ _ Hnodup Hin). reflexivity. }
  split; [apply filter_agree, Hagree|].
  intros ability Hin. apply list_elem_of_filter in Hin as [Hfirst Hin].
  pose proof (proj1 (Hagree ability Hin) Hfirst) as [Hreq Henergy].
  rewrite Hs in Hreq. simpl in Hreq.
  split.
  { rewrite (engine_check_run _ _ _ _ Hs).
    rewrite bool_decide_eq_true_2; [reflexivity | exact Hfirst]. }
  split; [exact Hreq|].
  unfold consumeEnergy. rewrite decide_True by lia. simpl.
  split; [reflexivity|]. split; [reflexivity | lia].
Qed.

Lemma available_abilities_are_usable_witness :
  exists listed,
    getAvailableAbilities
      (Some [mkAbility "power_strike" [("swordsmanship", 3)] 2;
             mkAbility "whirlwind" [("swordsmanship", 9)] 1])
      (mkEnergyUser (Sample.hero 1 20 [] active) 5)
    = Return listed /\
    map ability_id listed = ["power_strike"].
Proof.
  eexists. split.
  - apply (proj1 (proj2 (available_abilities_are_usable
             [mkAbility "power_strike" [("swordsmanship", 3)] 2;
              mkAbility "whirlwind" [("swordsmanship", 9)] 1]
             (mkEnergyUser (Sample.hero 1 20 [] active) 5)
             Sample.hero_skills eq_refl))).
  - vm_compute. reflexivity.
Defined.

(** The identifiers do have to be unique: of two abilities with the same
    identifier the second is listed as soon as the first is usable,
    whatever it costs itself. *)
Example duplicate_identifier_lists_unusable_ability :
  let cheap := mkAbility "strike" [] 1 in
  let dear := mkAbility "strike" [] 50 in
  let character := mkEnergyUser (Sample.hero 1 20 [] active) 5 in
  getAvailableAbilities (Some [cheap; dear]) character = Return [cheap; dear] /\
  fst (consumeEnergy character (energy_cost dear)) = false.
Proof. split; vm_compute; reflexivity. Qed.

End EngineMore.

Section Rooms.




End Rooms.

Section Enemies.

Import CombatSystem.

(** X26.  [areAllEnemiesDefeated] answers yes for a room state without
    an enemy list and for an empty list, and otherwise exactly when no
    enemy has health left.  It agrees with [applyDamage]: after every
    enemy of the room has taken damage, the room counts as cleared
    exactly when each of these calls reported that its target died, and
    then no enemy is active any more. *)
Theorem room_cleared_when_all_died (enemies : list Enemy) (damage : Enemy -> Z) :
  GameEngine.areAllEnemiesDefeated None = true /\
  GameEngine.areAllEnemiesDefeated (Some []) = true /\
  (GameEngine.areAllEnemiesDefeated (Some enemies) = true
   <-> Forall (fun enemy : Enemy => current_hp enemy <= 0) enemies) /\
  let after := map (fun enemy => struck (damage enemy) enemy) enemies in
  (GameEngine.areAllEnemiesDefeated (Some after) = true
   <-> Forall (fun enemy : Enemy =>
                 died (fst (applyDamage enemy (damage enemy))) = true)
         enemies) /\
  (GameEngine.areAllEnemiesDefeated (Some after) = true ->
   Forall (fun enemy : Enemy => status enemy <> Some active) after).
Proof.
  assert (Hall : forall l,
            GameEngine.areAllEnemiesDefeated (Some l) = true
            <-> Forall (fun enemy : Enemy => current_hp enemy <= 0) l).
  { intros l. unfold GameEngine.areAllEnemiesDefeated.
    rewrite forallb_forall, Forall_forall. split.
    - intros H enemy Hin. apply list_elem_of_In in Hin.
      exact (proj1 (bool_decide_eq_true _) (H enemy Hin)).
    - intros H enemy Hin. apply list_elem_of_In in Hin.
      apply bool_decide_eq_true_2, H, Hin. }
  split; [reflexivity|]. split; [reflexivity|]. split; [apply Hall|].
  cbv zeta. rewrite Hall, Forall_fmap.
  assert (Hdied : forall enemy : Enemy,
            current_hp (struck (damage enemy) enemy) <= 0
            <-> died (fst (applyDamage enemy (damage enemy))) = true).
  { intros enemy.
    change (current_hp (struck (damage enemy) enemy))
      with (current_hp (snd (applyDamage enemy (damage enemy)))).
    destruct (applyDamage_result enemy (damage enemy)) as (Hhp & Hd & _).
    rewrite Hd, Hhp, !applyDamage_hp. lia. }
  split.
  - apply Forall_iff. intros enemy. apply Hdied.
  - intros H. rewrite Forall_fmap.
    eapply Forall_impl; [exact H|]. intros enemy Hdown.
    change (current_hp (snd (applyDamage enemy (damage enemy))) <= 0)
      in Hdown.
    change (status (snd (applyDamage enemy (damage enemy))) <> Some active).
    rewrite applyDamage_hp in Hdown. rewrite applyDamage_status.
    rewrite decide_True by lia.
    destruct (decide _); discriminate.
Qed.

End Enemies.

Section EngineSkillCheck.

Import CombatSystem.




End EngineSkillCheck.

(** ** Results stored with their commands *)

Section StoredResults.


















End StoredResults.

(** ** The storage client *)

Section Storage.

Import AirtableClient.

Lemma client_getCharacter_run (characterId : Z) (w : World) :
  AirtableClient.getCharacter characterId w
    = (Return (read_character <$> stored_character w characterId), w).
Proof. reflexivity. Qed.




End Storage.

Section StoredCombatants.

Import CombatSystem.

(** X30.  A character handed out by [getCharacter] always carries a
    status, a skill map and an equipment object, whatever its record
    holds.  Two such characters can therefore always be set against each
    other: [resolveAttack] returns, with no more damage dealt than the
    defender has health when that health is not negative, and
    [processSkillProgression] returns for the attacker. *)
Theorem stored_characters_can_fight (attackerId defenderId : Z)
    (attacker defender : Character) (skillId : string) (am dm : Modifiers)
    (w : World) :
  AirtableClient.getCharacter attackerId w = (Return (Some attacker), w) ->
  AirtableClient.getCharacter defenderId w = (Return (Some defender), w) ->
  character_id attacker = attackerId /\
  is_Some (status attacker) /\ is_Some (skills attacker) /\
  is_Some (equipment attacker) /\
  (exists r,
     resolveAttack attacker defender skillId am dm w
       = (Return (r, stats attacker, stats defender), after_draws 2 w) /\
     (0 <= current_hp defender -> 0 <= actualDamage r <= current_hp defender)) /\
  (exists progress attacker',
     processSkillProgression attacker skillId w
       = (Return (progress, attacker'), after_draws 1 w)).
Proof.
  rewrite !client_getCharacter_run.
  destruct (stored_character w attackerId) as [a|] eqn:Ha; [|discriminate].
  destruct (stored_character w defenderId) as [d|] eqn:Hd; [|discriminate].
  intros [= <-] [= <-].
  split; [apply (stored_character_id _ _ _ Ha)|].
  split; [eexists; reflexivity|]. split; [eexists; reflexivity|].
  split; [eexists; reflexivity|].
  set (m := default ∅ (skills a)).
  assert (Hs : skills (AirtableClient.read_character a) = Some m) by reflexivity.
  split.
  - rewrite (resolveAttack_run _ _ _ _ _ _ _ Hs). cbv zeta.
    eexists. split; [reflexivity|]. intros Hhp. cbn [actualDamage].
    destruct (bool_decide _); [|lia].
    pose proof (calculateDamage_at_least_1
                  (level_of m skillId)
                  (getWeaponDamage
                     (equipment (AirtableClient.read_character a) ≫= main_hand))
                  (damage_modifiers
                     (attack_roll_of (d20_of (next_draw w))
                        (level_of m skillId) am) am)) as Hdmg.
    lia.
  - rewrite (processSkillProgression_run _ _ _ _ Hs). cbv zeta.
    destruct (below_chance _ _); eexists _, _; reflexivity.
Qed.

Lemma stored_characters_can_fight_witness :
  let raw := set_stats (Sample.bare 12) (Sample.hero 1 20 [] active) in
  let w := Sample.world [1; 2] [raw; Sample.hero 2 20 [] active] [] in
  skills raw = None /\
  exists r,
    resolveAttack (AirtableClient.read_character raw)
      (AirtableClient.read_character (Sample.hero 2 20 [] active))
      "swordsmanship" no_modifiers no_modifiers w
    = (Return (r, stats (AirtableClient.read_character raw),
               stats (AirtableClient.read_character
                        (Sample.hero 2 20 [] active))),
       after_draws 2 w).
Proof.
  cbv zeta. split; [reflexivity|].
  destruct (stored_characters_can_fight 1 2
              (AirtableClient.read_character
                 (set_stats (Sample.bare 12) (Sample.hero 1 20 [] active)))
              (AirtableClient.read_character (Sample.hero 2 20 [] active))
              "swordsmanship" no_modifiers no_modifiers
              (Sample.world [1; 2]
                 [set_stats (Sample.bare 12) (Sample.hero 1 20 [] active);
                  Sample.hero 2 20 [] active] [])
              eq_refl eq_refl)
    as (_ & _ & _ & _ & (r & Hr & _) & _).
  exists r. exact Hr.
Defined.

End StoredCombatants.
